(** * finance_merged.py: indicator pipeline, batch loop and report script

    Shallow embedding of [src/finance_merged.py].

    Numbers.  The pandas columns hold IEEE doubles.  Here a column entry is
    an [xval]: a finite value [Fin q] with [q] an exact rational, or one of
    the special values [PInf], [NInf], [NaN] with the IEEE rules for
    division by zero, infinities and NaN.  Rounding is not modelled (the
    arithmetic on finite values is exact) and signed zero is not
    distinguished, except in [stoch_k_f64], which evaluates the %K formula
    with each operation rounded to double precision.  Every finite result is kept in lowest terms ([Qred]) so
    that Leibniz equality of values is equality of numbers.

    Price bars come from yfinance as finite numbers (rows with missing
    prices are not part of the model).  The square root used by the
    rolling standard deviation is a rational approximation to within
    2^-52, in place of the double-precision [sqrt]. *)

From Stdlib Require Import Ascii String List ZArith QArith Qabs Qminmax Qpower Lia Lqa Bool.
Import ListNotations.
Open Scope Q_scope.

(** ** IEEE-style extended values *)

Inductive xval : Type :=
| Fin (q : Q)
| PInf
| NInf
| NaN.

Definition is_nan (x : xval) : bool :=
  match x with NaN => true | _ => false end.

Definition qsign (a : Q) : comparison := Qcompare a 0.

Definition xneg (x : xval) : xval :=
  match x with
  | Fin a => Fin (Qred (- a))
  | PInf => NInf
  | NInf => PInf
  | NaN => NaN
  end.

Definition xadd (x y : xval) : xval :=
  match x, y with
  | NaN, _ | _, NaN => NaN
  | Fin a, Fin b => Fin (Qred (a + b))
  | PInf, NInf | NInf, PInf => NaN
  | PInf, _ | _, PInf => PInf
  | NInf, _ | _, NInf => NInf
  end.

Definition xsub (x y : xval) : xval := xadd x (xneg y).

(** infinity times a finite number of the given sign *)
Definition inf_scale (pos : bool) (a : Q) : xval :=
  match qsign a with
  | Gt => if pos then PInf else NInf
  | Lt => if pos then NInf else PInf
  | Eq => NaN
  end.

Definition xmul (x y : xval) : xval :=
  match x, y with
  | NaN, _ | _, NaN => NaN
  | Fin a, Fin b => Fin (Qred (a * b))
  | PInf, Fin b | Fin b, PInf => inf_scale true b
  | NInf, Fin b | Fin b, NInf => inf_scale false b
  | PInf, PInf | NInf, NInf => PInf
  | PInf, NInf | NInf, PInf => NInf
  end.

Definition xdiv (x y : xval) : xval :=
  match x, y with
  | NaN, _ | _, NaN => NaN
  | Fin a, Fin b =>
      match qsign b with
      | Eq => inf_scale true a
      | _ => Fin (Qred (a / b))
      end
  | Fin _, (PInf | NInf) => Fin 0
  | PInf, Fin b =>
      match qsign b with Lt => NInf | _ => PInf end
  | NInf, Fin b =>
      match qsign b with Lt => PInf | _ => NInf end
  | (PInf | NInf), (PInf | NInf) => NaN
  end.

Definition xabs (x : xval) : xval :=
  match x with
  | Fin a => Fin (Qred (Qabs a))
  | PInf | NInf => PInf
  | NaN => NaN
  end.

Definition Qlt_bool (a b : Q) : bool := negb (Qle_bool b a).

(** [x < y] and [x > y] as Python evaluates them on floats: false on NaN *)
Definition xlt (x y : xval) : bool :=
  match x, y with
  | NaN, _ | _, NaN => false
  | Fin a, Fin b => Qlt_bool a b
  | NInf, NInf => false
  | NInf, _ => true
  | _, PInf => match x with PInf => false | _ => true end
  | _, _ => false
  end.

Definition xgt (x y : xval) : bool := xlt y x.

Definition xmax2 (x y : xval) : xval := if xlt x y then y else x.
Definition xmin2 (x y : xval) : xval := if xlt y x then y else x.

(** ** Double-precision rounding *)







(** ** Column helpers (pandas Series operations) *)

Fixpoint zip_with {A B C} (f : A -> B -> C) (l1 : list A) (l2 : list B)
  : list C :=
  match l1, l2 with
  | a :: r1, b :: r2 => f a b :: zip_with f r1 r2
  | _, _ => []
  end.

(** the trailing window of [w] entries ending at index [i] *)
Definition window {A} (w i : nat) (l : list A) : list A :=
  firstn w (skipn (S i - w) l).

(** [s.rolling(window=w).agg()]: undefined until [w] entries are
    available, then the aggregate of the trailing window *)
Definition rolling {A} (w : nat) (agg : list A -> xval) (l : list A)
  : list xval :=
  map (fun i => if (S i <? w)%nat then NaN else agg (window w i l))
      (seq 0 (length l)).

Definition xsum (ws : list xval) : xval := fold_left xadd ws (Fin 0).

Definition inject_nat (n : nat) : Q := inject_Z (Z.of_nat n).

(** rolling mean: NaN when fewer than [w] non-NaN observations *)
Definition xmean (w : nat) (ws : list xval) : xval :=
  if existsb is_nan ws then NaN else xdiv (xsum ws) (Fin (inject_nat w)).

Definition xmin_all (ws : list xval) : xval :=
  if existsb is_nan ws then NaN
  else match ws with [] => NaN | x :: r => fold_left xmin2 r x end.

Definition xmax_all (ws : list xval) : xval :=
  if existsb is_nan ws then NaN
  else match ws with [] => NaN | x :: r => fold_left xmax2 r x end.

(** [max(axis=1)] with pandas' default [skipna=True] *)
Definition xmax_skipna (ws : list xval) : xval :=
  xmax_all (filter (fun x => negb (is_nan x)) ws).

Definition sqrt_q (a : Q) : Q :=
  if Qle_bool a 0 then 0
  else Qred (Z.sqrt (Qnum a * Zpos (Qden a) * 2 ^ 104)
             # (Qden a * 2 ^ 52)).

(** sample standard deviation (ddof = 1), pandas' [rolling().std()] *)
Definition xstd (w : nat) (ws : list xval) : xval :=
  match xmean w ws with
  | Fin m =>
      let sq := map (fun x => xmul (xsub x (Fin m)) (xsub x (Fin m))) ws in
      match xdiv (xsum sq) (Fin (inject_nat (w - 1))) with
      | Fin v => Fin (sqrt_q v)
      | other => other
      end
  | other => other
  end.

(** ** Exponential moving averages over finite values

    [s.ewm(span=s, adjust=True).mean()]: the weighted mean
    [sum_i w^i x(t-i) / sum_i w^i] with [w = 1 - 2/(span+1)], computed by
    its running numerator and denominator.  [adjust=False]: [y0 = x0] and
    [y(t) = w y(t-1) + (1 - w) x(t)]. *)

Definition ewm_decay (span : nat) : Q :=
  Qred (1 - 2 / (inject_nat span + 1)).

Fixpoint ewm_adjusted_go (w num den : Q) (xs : list Q) : list Q :=
  match xs with
  | [] => []
  | x :: r =>
      let num' := Qred (x + w * num) in
      let den' := Qred (1 + w * den) in
      Qred (num' / den') :: ewm_adjusted_go w num' den' r
  end.

Definition ewm_adjusted (span : nat) (xs : list Q) : list Q :=
  ewm_adjusted_go (ewm_decay span) 0 0 xs.

Fixpoint ewm_unadjusted_go (w prev : Q) (xs : list Q) : list Q :=
  match xs with
  | [] => []
  | x :: r =>
      let y := Qred (w * prev + (1 - w) * x) in
      y :: ewm_unadjusted_go w y r
  end.

Definition ewm_unadjusted (span : nat) (xs : list Q) : list Q :=
  match xs with
  | [] => []
  | x :: r => x :: ewm_unadjusted_go (ewm_decay span) x r
  end.

(** ** Data model *)

(** one row of [stock.history(period="1y", interval="1d")]; the date is
    the wall-clock timestamp of the DatetimeIndex *)
Record Bar : Type := mkBar {
  b_date : Z;
  b_open : Q;
  b_high : Q;
  b_low : Q;
  b_close : Q;
  b_volume : Z
}.

(** the DataFrame: its index timezone (None when naive) and its rows *)
Record History : Type := mkHistory {
  h_tz : option string;
  h_bars : list Bar
}.

(** the columns that lines 40-77 add to [hist] *)
Record Indicators : Type := mkIndicators {
  ma50 : list xval;
  ma200 : list xval;
  macd_line : list xval;
  macd_signal : list xval;
  macd_hist : list xval;
  rsi : list xval;
  bb_middle : list xval;
  bb_upper : list xval;
  bb_lower : list xval;
  stoch_k : list xval;
  stoch_d : list xval;
  atr : list xval
}.

Definition closes (bars : list Bar) : list xval :=
  map (fun b => Fin (b_close b)) bars.
Definition highs (bars : list Bar) : list xval :=
  map (fun b => Fin (b_high b)) bars.
Definition lows (bars : list Bar) : list xval :=
  map (fun b => Fin (b_low b)) bars.

(** [s.diff()] and [s.shift()] *)
Definition diff (s : list xval) : list xval :=
  match s with
  | [] => []
  | _ :: r => NaN :: zip_with xsub r s
  end.

Definition shift (s : list xval) : list xval :=
  match s with
  | [] => []
  | _ => NaN :: removelast s
  end.

(** lines 41-42 *)
Definition ma_col (w : nat) (bars : list Bar) : list xval :=
  rolling w (xmean w) (closes bars).

(** lines 45-49; the closes are finite, so both EMAs and the MACD line
    are finite and are computed on their rational values *)
Definition macd_line_q (bars : list Bar) : list Q :=
  let c := map b_close bars in
  zip_with (fun a b => Qred (a - b)) (ewm_adjusted 12 c) (ewm_adjusted 26 c).

Definition macd_line_col (bars : list Bar) : list xval :=
  map Fin (macd_line_q bars).

Definition macd_signal_col (bars : list Bar) : list xval :=
  map Fin (ewm_unadjusted 9 (macd_line_q bars)).

Definition macd_hist_col (bars : list Bar) : list xval :=
  zip_with xsub (macd_line_col bars) (macd_signal_col bars).

(** lines 52-58 *)
Definition gain_col (bars : list Bar) : list xval :=
  map (fun d => if xgt d (Fin 0) then d else Fin 0) (diff (closes bars)).

Definition loss_col (bars : list Bar) : list xval :=
  map (fun d => xneg (if xlt d (Fin 0) then d else Fin 0))
      (diff (closes bars)).

Definition avg_gain (bars : list Bar) : list xval :=
  rolling 14 (xmean 14) (gain_col bars).
Definition avg_loss (bars : list Bar) : list xval :=
  rolling 14 (xmean 14) (loss_col bars).

Definition rsi_of_rs (rs : xval) : xval :=
  xsub (Fin 100) (xdiv (Fin 100) (xadd (Fin 1) rs)).

Definition rsi_col (bars : list Bar) : list xval :=
  map rsi_of_rs (zip_with xdiv (avg_gain bars) (avg_loss bars)).

(** lines 61-64 *)
Definition bb_middle_col (bars : list Bar) : list xval :=
  rolling 20 (xmean 20) (closes bars).
Definition bb_std (bars : list Bar) : list xval :=
  rolling 20 (xstd 20) (closes bars).
Definition bb_upper_col (bars : list Bar) : list xval :=
  zip_with (fun m s => xadd m (xmul (Fin 2) s)) (bb_middle_col bars) (bb_std bars).
Definition bb_lower_col (bars : list Bar) : list xval :=
  zip_with (fun m s => xsub m (xmul (Fin 2) s)) (bb_middle_col bars) (bb_std bars).

(** lines 67-70 *)
Definition low_14 (bars : list Bar) : list xval :=
  rolling 14 xmin_all (lows bars).
Definition high_14 (bars : list Bar) : list xval :=
  rolling 14 xmax_all (highs bars).

Definition stoch_k_col (bars : list Bar) : list xval :=
  zip_with xdiv
    (zip_with (fun c l => xmul (Fin 100) (xsub c l)) (closes bars) (low_14 bars))
    (zip_with xsub (high_14 bars) (low_14 bars)).

Definition stoch_d_col (bars : list Bar) : list xval :=
  rolling 3 (xmean 3) (stoch_k_col bars).


(** lines 73-77 *)
Definition true_range (bars : list Bar) : list xval :=
  let high_low := zip_with xsub (highs bars) (lows bars) in
  let high_close := map xabs (zip_with xsub (highs bars) (shift (closes bars))) in
  let low_close := map xabs (zip_with xsub (lows bars) (shift (closes bars))) in
  zip_with (fun a bc => xmax_skipna [a; fst bc; snd bc])
    high_low (zip_with pair high_close low_close).

Definition atr_col (bars : list Bar) : list xval :=
  rolling 14 (xmean 14) (true_range bars).

(** ** IndicatorEngine: the [if len(hist) >= 200] block, lines 39-77 *)

Definition min_bars : nat := 200.

Inductive EngineResult : Type :=
| InsufficientData
| Computed (ind : Indicators).

Definition indicators (bars : list Bar) : Indicators :=
  {| ma50 := ma_col 50 bars;
     ma200 := ma_col 200 bars;
     macd_line := macd_line_col bars;
     macd_signal := macd_signal_col bars;
     macd_hist := macd_hist_col bars;
     rsi := rsi_col bars;
     bb_middle := bb_middle_col bars;
     bb_upper := bb_upper_col bars;
     bb_lower := bb_lower_col bars;
     stoch_k := stoch_k_col bars;
     stoch_d := stoch_d_col bars;
     atr := atr_col bars |}.

Definition compute (bars : list Bar) : EngineResult :=
  if (min_bars <=? length bars)%nat then Computed (indicators bars)
  else InsufficientData.

(** ** Report rows and the trailing window (lines 80-89) *)

(** [stock.info] as the dict it is: [info.get(k)] is its lookup *)
Definition Info := list (string * string).

Definition info_get (info : Info) (k : string) : option string :=
  option_map snd (find (fun kv => String.eqb (fst kv) k) info).

(** one row of [recent_hist] after [reset_index()] *)
Record Row : Type := mkRow {
  r_date : Z;
  r_open : Q;
  r_high : Q;
  r_low : Q;
  r_close : Q;
  r_volume : Z;
  r_ma50 : xval;
  r_ma200 : xval;
  r_macd_line : xval;
  r_macd_signal : xval;
  r_macd_hist : xval;
  r_rsi : xval;
  r_bb_middle : xval;
  r_bb_upper : xval;
  r_bb_lower : xval;
  r_stoch_k : xval;
  r_stoch_d : xval;
  r_atr : xval;
  r_ticker : string;
  r_sector : option string;
  r_industry : option string
}.

(** a ReportWindow: the timezone of its Date column and its rows *)
Record ReportWindow : Type := mkWindow {
  w_tz : option string;
  w_rows : list Row
}.

Definition dummy_bar : Bar := mkBar 0 0 0 0 0 0.

Definition row_at (bars : list Bar) (ind : Indicators) (ticker : string)
    (info : Info) (i : nat) : Row :=
  let b := nth i bars dummy_bar in
  let col c := nth i c NaN in
  {| r_date := b_date b; r_open := b_open b; r_high := b_high b;
     r_low := b_low b; r_close := b_close b; r_volume := b_volume b;
     r_ma50 := col (ma50 ind); r_ma200 := col (ma200 ind);
     r_macd_line := col (macd_line ind); r_macd_signal := col (macd_signal ind);
     r_macd_hist := col (macd_hist ind); r_rsi := col (rsi ind);
     r_bb_middle := col (bb_middle ind); r_bb_upper := col (bb_upper ind);
     r_bb_lower := col (bb_lower ind); r_stoch_k := col (stoch_k ind);
     r_stoch_d := col (stoch_d ind); r_atr := col (atr ind);
     r_ticker := ticker;
     r_sector := info_get info "sector";
     r_industry := info_get info "industry" |}.

(** [df.tail(n)] *)
Definition tail_n {A} (n : nat) (l : list A) : list A :=
  skipn (length l - n) l.

(** [hist.tail(5).reset_index()], then [tz_localize(None)] on a
    timezone-aware Date column *)
Definition recent_window (h : History) (ind : Indicators) (ticker : string)
    (info : Info) : ReportWindow :=
  let bars := h_bars h in
  let rows := tail_n 5 (map (row_at bars ind ticker info) (seq 0 (length bars))) in
  match h_tz h with
  | Some _ => {| w_tz := None; w_rows := rows |}
  | None => {| w_tz := None; w_rows := rows |}
  end.

(** ** Per-ticker step (lines 34-96) *)

(** What [data.tickers[ticker]], [stock.info] and [stock.history(...)]
    give for one symbol: the info dict and the history, or the message of
    the exception raised.  [yf.Tickers] only builds lazy per-symbol
    objects, keyed by symbol, so the outcome depends on the symbol alone. *)
Inductive FetchResult : Type :=
| FetchError (e : string)
| Fetched (info : Info) (h : History).

Inductive Outcome : Type :=
| Recorded (w : ReportWindow)
| Skipped
| Failed (e : string).

Definition process_ticker (fetch : string -> FetchResult) (ticker : string)
  : Outcome :=
  match fetch ticker with
  | FetchError e => Failed e
  | Fetched info h =>
      match compute (h_bars h) with
      | InsufficientData => Skipped
      | Computed ind => Recorded (recent_window h ind ticker info)
      end
  end.

(** ** The Python dict [all_data]: insertion-ordered, assignment to a
    present key keeps its position *)
Definition Dict (V : Type) := list (string * V).

Fixpoint dict_set {V} (k : string) (v : V) (d : Dict V) : Dict V :=
  match d with
  | [] => [(k, v)]
  | (k', v') :: r =>
      if String.eqb k k' then (k, v) :: r else (k', v') :: dict_set k v r
  end.

Fixpoint dict_get {V} (k : string) (d : Dict V) : option V :=
  match d with
  | [] => None
  | (k', v) :: r => if String.eqb k k' then Some v else dict_get k r
  end.

Definition BatchResult := Dict ReportWindow.

(** lines printed by the script *)
Inductive Msg : Type :=
| MsgText (s : string)
| MsgBatch (k total size : nat)
| MsgNotEnough (ticker : string)
| MsgError (ticker e : string)
| MsgTickerCount (n : nat)
| MsgFirst5 (ts : list string)
| MsgProcessingAll (n : nat)
| MsgProcessed (n : nat).

(** one iteration of the inner loop, with its [try]/[except Exception] *)
Definition step (fetch : string -> FetchResult)
    (acc : list Msg * BatchResult) (ticker : string) : list Msg * BatchResult :=
  let '(log, all_data) := acc in
  match process_ticker fetch ticker with
  | Recorded w => (log, dict_set ticker w all_data)
  | Skipped => (log ++ [MsgNotEnough ticker], all_data)
  | Failed e => (log ++ [MsgError ticker e], all_data)
  end.

(** [range(start, stop, step)] *)
Fixpoint py_range_go (fuel start stop stp : nat) : list nat :=
  match fuel with
  | O => []
  | S f =>
      if (start <? stop)%nat then start :: py_range_go f (start + stp) stop stp
      else []
  end.

Definition py_range (start stop stp : nat) : list nat :=
  py_range_go stop start stop stp.

(** [fetch_stock_data], with the group size (the local [batch_size])
    as a parameter *)
Definition fetch_stock_data_bs (batch_size : nat)
    (fetch : string -> FetchResult) (tickers : list string)
  : list Msg * BatchResult :=
  fold_left
    (fun acc i =>
       let batch_tickers := firstn batch_size (skipn i tickers) in
       let acc' := (fst acc ++ [MsgBatch (i / batch_size + 1)
                                  ((length tickers - 1) / batch_size + 1)
                                  (length batch_tickers)], snd acc) in
       fold_left (step fetch) batch_tickers acc')
    (py_range 0 (length tickers) batch_size) ([], []).

Definition fetch_stock_data := fetch_stock_data_bs 50.

(** ** The script (lines 6-20 and 100-140) *)

(** what [pd.read_html(url)] gives: the Symbol column of the first table,
    or an exception of one of these kinds *)
Inductive ErrKind : Type := ImportErr | RequestErr | ValueErr | OtherErr.

Inductive WikiResult : Type :=
| WikiTable (symbols : list string)
| WikiRaises (k : ErrKind) (e : string).

(** [get_sp500_tickers_wikipedia]: printed lines, then the list or an
    exception that escapes *)
Definition get_sp500_tickers_wikipedia (r : WikiResult)
  : list Msg * (list string + string) :=
  match r with
  | WikiTable l => ([], inl l)
  | WikiRaises ImportErr e =>
      ([MsgText ("Error: Missing dependency. " ++ e);
        MsgText "Please install required packages: pip install lxml"], inl [])
  | WikiRaises (RequestErr | ValueErr) e =>
      ([MsgText ("Error fetching S&P 500 tickers: " ++ e)], inl [])
  | WikiRaises OtherErr e => ([], inr e)
  end.

(** an uncaught exception is recorded as its type and message *)
Inductive Effect : Type :=
| Print (m : Msg)
| WriteCsv (file : string) (rows : list string)
| CreateFile (file : string)
| WriteExcel (file : string) (sheets : list (string * list Row))
| Uncaught (e : string).

(** sheet name: [f"{ticker}"[:31]] *)
Definition sheet_name (ticker : string) : string := substring 0 31 ticker.

Definition summary_rows (d : BatchResult) : list Row :=
  flat_map (fun kv => match rev (w_rows (snd kv)) with
                      | [] => []
                      | latest :: _ => [latest]
                      end) d.

(** the [to_excel] calls made inside the [with] block (lines 122-136), in
    order: the [sheet_name] argument and the rows of the DataFrame.  Every
    DataFrame has the columns of [Row], in the same order. *)
Definition excel_sheets (d : BatchResult) : list (string * list Row) :=
  (match summary_rows d with [] => [] | s => [("Summary"%string, s)] end) ++
  flat_map (fun kv => match w_rows (snd kv) with
                      | [] => []
                      | rs => [(sheet_name (fst kv), rs)]
                      end) d.

(** *** The workbook built by [pd.ExcelWriter(..., engine='openpyxl')]

    A workbook is its list of sheets, in creation order, each with its
    title and its rows.  Case-insensitive comparison of titles ([str.lower]
    and the [re.I] flag) is modelled on ASCII letters. *)

Definition Workbook := list (string * list Row).

Definition ascii_lower (c : ascii) : ascii :=
  let n := nat_of_ascii c in
  if ((65 <=? n) && (n <=? 90))%nat then ascii_of_nat (n + 32) else c.

Fixpoint str_lower (s : string) : string :=
  match s with
  | EmptyString => EmptyString
  | String c s' => String (ascii_lower c) (str_lower s')
  end.

Definition is_digit (c : ascii) : bool :=
  let n := nat_of_ascii c in ((48 <=? n) && (n <=? 57))%nat.

(** the leading run of digits of [s], and the rest *)
Fixpoint digits_prefix (s : string) : string * string :=
  match s with
  | String c s' =>
      if is_digit c then let '(ds, r) := digits_prefix s' in (String c ds, r)
      else (EmptyString, s)
  | EmptyString => (EmptyString, EmptyString)
  end.

Fixpoint digits_value (acc : nat) (s : string) : nat :=
  match s with
  | EmptyString => acc
  | String c s' => digits_value (acc * 10 + (nat_of_ascii c - 48)) s'
  end.

Fixpoint decimal_go (fuel n : nat) (acc : string) : string :=
  match fuel with
  | O => acc
  | S f =>
      let acc' := String (ascii_of_nat (48 + n mod 10)) acc in
      if (n <? 10)%nat then acc' else decimal_go f (n / 10) acc'
  end.

(** [str(n)] *)
Definition decimal (n : nat) : string := decimal_go (S n) n EmptyString.

(** the count groups found by openpyxl's title regex in [s]: [value]
    (matched ignoring case), then a run of digits (the count), then an
    optional comma; [findall] takes the leftmost non-overlapping matches *)
Fixpoint title_counts (fuel : nat) (value s : string) : list string :=
  match fuel with
  | O => []
  | S f =>
      match s with
      | EmptyString => []
      | String _ s' =>
          if String.prefix (str_lower value) (str_lower s) then
            let rest := substring (String.length value) (String.length s) s in
            let '(ds, rest') := digits_prefix rest in
            let rest'' := match rest' with
                          | String ","%char r => r
                          | _ => rest'
                          end in
            ds :: title_counts f value rest''
          else title_counts f value s'
      end
  end.

(** openpyxl's [avoid_duplicate_name]: a title that equals an existing one
    up to case gets the next number after the highest count found *)
Definition avoid_duplicate_name (names : list string) (value : string) : string :=
  if existsb (fun n => String.eqb (str_lower n) (str_lower value)) names then
    let joined := String.concat "," names in
    match title_counts (S (String.length joined)) value joined with
    | [] => value
    | ms =>
        let counts := map (digits_value 0%nat) (filter (fun ds => negb (String.eqb ds "")) ms) in
        (value ++ decimal (S (fold_right Nat.max 0%nat counts)))%string
    end
  else value.

(** openpyxl's [INVALID_TITLE_REGEX]: one of \ * ? : / [ ] *)
Definition invalid_title_char (c : ascii) : bool :=
  existsb (Ascii.eqb c)
    ["\"%char; "*"%char; "?"%char; ":"%char; "/"%char; "["%char; "]"%char].

Definition valid_title (t : string) : bool :=
  negb (String.eqb t "") && negb (existsb invalid_title_char (list_ascii_of_string t)).

(** writing into an existing sheet overwrites its cells: with the same
    columns, the first [length rows] rows are replaced *)
Fixpoint overlay (name : string) (rows : list Row) (wb : Workbook) : Workbook :=
  match wb with
  | [] => []
  | (t, old) :: wb' =>
      if String.eqb t name then (t, rows ++ skipn (length rows) old) :: wb'
      else (t, old) :: overlay name rows wb'
  end.

(** [df.to_excel(writer, sheet_name=name)] in mode "w": pandas'
    [_write_cells] reuses the sheet titled [name] when there is one;
    otherwise it calls [book.create_sheet()] (a new sheet with the default
    title "Sheet", deduplicated) and sets its title to [name], which
    raises ValueError for an empty title or an invalid character and
    otherwise deduplicates [name] against all titles, the new sheet's
    included.  On an exception the new sheet stays, with its default title. *)
Definition write_sheet (wb : Workbook) (name : string) (rows : list Row)
  : Workbook + (string * Workbook) :=
  if existsb (String.eqb name) (map fst wb) then inl (overlay name rows wb)
  else
    let default := avoid_duplicate_name (map fst wb) "Sheet" in
    let wb1 := (wb ++ [(default, [])])%list in
    if String.eqb name "" then
      inr ("ValueError: Title must have at least one character"%string, wb1)
    else
      match find invalid_title_char (list_ascii_of_string name) with
      | Some c =>
          inr (("ValueError: Invalid character " ++ String c EmptyString ++
                " found in sheet title")%string, wb1)
      | None =>
          let title := if String.eqb default name then name
                       else avoid_duplicate_name (map fst wb1) name in
          inl (wb ++ [(title, rows)])%list
      end.

(** the calls in order, up to the first exception *)
Fixpoint write_sheets (wb : Workbook) (calls : list (string * list Row))
  : Workbook * option string :=
  match calls with
  | [] => (wb, None)
  | (name, rows) :: rest =>
      match write_sheet wb name rows with
      | inl wb' => write_sheets wb' rest
      | inr (e, wb') => (wb', Some e)
      end
  end.

Definition openpyxl_missing : string :=
  "ModuleNotFoundError: No module named 'openpyxl'".
Definition no_visible_sheet : string :=
  "IndexError: At least one sheet must be visible".

(** lines 119-138.  [OpenpyxlWriter.__init__] imports openpyxl first, then
    opens the file for writing ([CreateFile]: created or emptied) and
    starts a workbook with no sheet.  Leaving the [with] block, normally or
    by an exception, saves the workbook; openpyxl's save raises IndexError
    on a workbook without sheets, leaving the file without a readable
    workbook.  An exception from the block propagates after a successful
    save. *)
Definition excel_block (has_openpyxl : bool) (ticker_data : BatchResult) : list Effect :=
  if negb has_openpyxl then [Uncaught openpyxl_missing]
  else
    let '(wb, err) := write_sheets [] (excel_sheets ticker_data) in
    CreateFile "sp500_analysis.xlsx" ::
    match wb with
    | [] => [Uncaught no_visible_sheet]
    | _ :: _ =>
        WriteExcel "sp500_analysis.xlsx" wb ::
        match err with
        | Some e => [Uncaught e]
        | None => [Print (MsgText "Data saved to sp500_analysis.xlsx with multiple sheets")]
        end
    end.

(** the module-level statements, as the sequence of their effects;
    [has_openpyxl] tells whether the openpyxl package can be imported *)
Definition main (r : WikiResult) (fetch : string -> FetchResult) (has_openpyxl : bool)
  : list Effect :=
  let '(wlog, res) := get_sp500_tickers_wikipedia r in
  map Print (MsgText "Fetching S&P 500 tickers from Wikipedia..." :: wlog) ++
  match res with
  | inr e => [Uncaught e]
  | inl sp500_tickers =>
      [Print (MsgTickerCount (length sp500_tickers));
       Print (MsgFirst5 (firstn 5 sp500_tickers))] ++
      match sp500_tickers with
      | [] =>
          [Print (MsgText "No tickers retrieved. Please check dependencies and try again.")]
      | _ :: _ =>
          let '(log, ticker_data) := fetch_stock_data fetch sp500_tickers in
          [WriteCsv "sp500_tickers.csv" sp500_tickers;
           Print (MsgText "S&P 500 tickers saved to sp500_tickers.csv");
           Print (MsgProcessingAll (length sp500_tickers))] ++
          map Print log ++
          [Print (MsgProcessed (length ticker_data));
           Print (MsgText "Saving data to Excel file...")] ++
          excel_block has_openpyxl ticker_data
      end
  end.

Definition writes_file (ef : Effect) : bool :=
  match ef with WriteCsv _ _ | CreateFile _ | WriteExcel _ _ => true | _ => false end.

(** number of leading undefined (NaN) entries of a column *)
Fixpoint leading_undefined (c : list xval) : nat :=
  match c with
  | NaN :: r => S (leading_undefined r)
  | _ => 0
  end.

(** the close, low and high of bar [j] *)
Definition close_at (bars : list Bar) (j : nat) : Q := b_close (nth j bars dummy_bar).
Definition low_at (bars : list Bar) (j : nat) : Q := b_low (nth j bars dummy_bar).
Definition high_at (bars : list Bar) (j : nat) : Q := b_high (nth j bars dummy_bar).

Definition bar_ohlcv (b : Bar) : Q * Q * Q * Q * Z :=
  (b_open b, b_high b, b_low b, b_close b, b_volume b).

Definition row_ohlcv (r : Row) : Q * Q * Q * Q * Z :=
  (r_open r, r_high r, r_low r, r_close r, r_volume r).

Definition outcome_window (o : Outcome) : option ReportWindow :=
  match o with Recorded w => Some w | _ => None end.

(** the dict part of one loop iteration *)
Definition record_ticker (fetch : string -> FetchResult) (d : BatchResult)
    (ticker : string) : BatchResult :=
  match process_ticker fetch ticker with
  | Recorded w => dict_set ticker w d
  | _ => d
  end.

(** ** Sample inputs *)

(** [n] daily bars with closes 100, 101, ...; high = close + 1, low = close - 1 *)
Definition ramp (n : nat) : list Bar :=
  map (fun i => let c := inject_nat (100 + i) in
                mkBar (Z.of_nat i) c (c + 1) (c - 1) c 1000)
      (seq 0 n).

(** [n] identical bars: open = high = low = close = 10 *)
Definition flat (n : nat) : list Bar :=
  map (fun i => mkBar (Z.of_nat i) 10 10 10 10 1000) (seq 0 n).

(** [n] bars with high = low = 10 but close 11 (outside the bar's range) *)
Definition flat_close_above (n : nat) : list Bar :=
  map (fun i => mkBar (Z.of_nat i) 10 10 10 11 1000) (seq 0 n).



(** three symbols: "B" fails to fetch, "A" and "C" have a year of bars *)
Definition fetch_abc (t : string) : FetchResult :=
  if String.eqb t "B" then FetchError "HTTP Error 404"
  else Fetched [("sector"%string, "Technology"%string)] (mkHistory (Some "America/New_York"%string) (ramp 250)).

(** "NEW" is a recent listing with 150 bars *)
Definition fetch_short (t : string) : FetchResult :=
  Fetched [] (mkHistory None (ramp 150)).

(** ** Generic facts about columns *)

Lemma length_zip_with {A B C} (f : A -> B -> C) l1 l2 :
  length (zip_with f l1 l2) = Nat.min (length l1) (length l2).
Proof.
  revert l2; induction l1 as [|a l1 IH]; intros [|b l2]; simpl; auto.
Qed.

Lemma nth_zip_with {A B C} (f : A -> B -> C) l1 l2 i d d1 d2 :
  (i < length l1)%nat -> (i < length l2)%nat ->
  nth i (zip_with f l1 l2) d = f (nth i l1 d1) (nth i l2 d2).
Proof.
  revert l2 i; induction l1 as [|a l1 IH]; intros [|b l2] i H1 H2;
    simpl in *; try lia.
  destruct i; [reflexivity | apply IH; lia].
Qed.

Lemma length_rolling {A} w agg (l : list A) :
  length (rolling w agg l) = length l.
Proof. unfold rolling. now rewrite length_map, length_seq. Qed.

Lemma nth_rolling {A} w agg (l : list A) i :
  (i < length l)%nat ->
  nth i (rolling w agg l) NaN =
  if (S i <? w)%nat then NaN else agg (window w i l).
Proof.
  intros Hi. unfold rolling.
  set (f := fun k => if (S k <? w)%nat then NaN else agg (window w k l)).
  rewrite (nth_indep _ NaN (f 0%nat))
    by (rewrite length_map, length_seq; exact Hi).
  rewrite map_nth, seq_nth by exact Hi. reflexivity.
Qed.


Lemma nth_in_window {A} w i j (l : list A) d :
  (S i - w <= j)%nat -> (j <= i)%nat -> (i < length l)%nat -> (0 < w)%nat ->
  In (nth j l d) (window w i l).
Proof.
  intros H1 H2 H3 H4. unfold window.
  replace (nth j l d) with (nth (j - (S i - w)) (firstn w (skipn (S i - w) l)) d).
  - apply nth_In. rewrite length_firstn, length_skipn. lia.
  - rewrite nth_firstn. replace ((j - (S i - w)) <? w)%nat with true
      by (symmetry; apply Nat.ltb_lt; lia).
    rewrite nth_skipn. f_equal. lia.
Qed.

Lemma length_diff s : length (diff s) = length s.
Proof.
  destruct s as [|x r]; simpl; [reflexivity|].
  rewrite length_zip_with. simpl. lia.
Qed.

Lemma length_shift s : length (shift s) = length s.
Proof.
  destruct s as [|x r]; [reflexivity|].
  unfold shift. cbn [length].
  rewrite removelast_firstn_len, length_firstn. cbn [length pred]. lia.
Qed.

(** ** Facts about the batch loop *)

Lemma dict_get_set {V} k k' (v : V) d :
  dict_get k (dict_set k' v d) =
  if String.eqb k k' then Some v else dict_get k d.
Proof.
  induction d as [|[k0 v0] r IH]; simpl.
  - destruct (String.eqb k k'); reflexivity.
  - destruct (String.eqb_spec k' k0) as [->|Hne]; simpl.
    + destruct (String.eqb k k0); reflexivity.
    + rewrite IH. destruct (String.eqb_spec k k0) as [->|Hk]; simpl.
      * destruct (String.eqb_spec k0 k') as [->|]; [congruence|reflexivity].
      * reflexivity.
Qed.

Lemma snd_fold_step fetch l acc :
  snd (fold_left (step fetch) l acc) = fold_left (record_ticker fetch) l (snd acc).
Proof.
  revert acc; induction l as [|t r IH]; intros [log d]; simpl; [reflexivity|].
  rewrite IH. unfold step, record_ticker.
  destruct (process_ticker fetch t); reflexivity.
Qed.

Lemma get_fold_record fetch l d k :
  dict_get k (fold_left (record_ticker fetch) l d) =
  if existsb (String.eqb k) l
  then match process_ticker fetch k with
       | Recorded w => Some w
       | _ => dict_get k d
       end
  else dict_get k d.
Proof.
  revert d; induction l as [|t r IH]; intros d; simpl; [reflexivity|].
  rewrite IH. unfold record_ticker.
  destruct (String.eqb_spec k t) as [->|Hne]; simpl.
  - destruct (process_ticker fetch t) eqn:E; simpl;
      try (rewrite dict_get_set, String.eqb_refl);
      destruct (existsb (String.eqb t) r); reflexivity.
  - destruct (process_ticker fetch t) eqn:E; try reflexivity.
    rewrite dict_get_set. apply String.eqb_neq in Hne. rewrite Hne. reflexivity.
Qed.

Lemma concat_batches (bs : nat) (l : list string) :
  (0 < bs)%nat ->
  concat (map (fun i => firstn bs (skipn i l)) (py_range 0 (length l) bs)) = l.
Proof.
  intros Hbs. unfold py_range.
  enough (H : forall fuel start, (length l <= start + fuel)%nat ->
            concat (map (fun i => firstn bs (skipn i l))
                        (py_range_go fuel start (length l) bs)) = skipn start l)
    by (apply H; lia).
  induction fuel as [|f IH]; intros start Hle; simpl.
  - symmetry. apply length_zero_iff_nil. rewrite length_skipn. lia.
  - destruct (Nat.ltb_spec start (length l)); simpl.
    + rewrite IH by lia. replace (start + bs)%nat with (bs + start)%nat by lia.
      rewrite <- skipn_skipn, firstn_skipn. reflexivity.
    + symmetry. apply length_zero_iff_nil. rewrite length_skipn. lia.
Qed.

Lemma batch_result_flat bs fetch l :
  (0 < bs)%nat ->
  snd (fetch_stock_data_bs bs fetch l) = fold_left (record_ticker fetch) l [].
Proof.
  intros Hbs. unfold fetch_stock_data_bs.
  transitivity (fold_left (record_ticker fetch)
    (concat (map (fun i => firstn bs (skipn i l)) (py_range 0 (length l) bs))) []);
    [|now rewrite concat_batches].
  assert (G : forall rng (acc : list Msg * BatchResult),
    snd (fold_left
      (fun acc i =>
         let batch_tickers := firstn bs (skipn i l) in
         fold_left (step fetch) batch_tickers
           (fst acc ++ [MsgBatch (i / bs + 1) ((length l - 1) / bs + 1)
                          (length batch_tickers)], snd acc)) rng acc) =
    fold_left (record_ticker fetch)
      (concat (map (fun i => firstn bs (skipn i l)) rng)) (snd acc)).
  { induction rng as [|i r IH]; intros acc; [reflexivity|].
    cbn [fold_left map concat]. rewrite IH, fold_left_app, snd_fold_step.
    reflexivity. }
  apply (G _ ([], [])).
Qed.

Lemma batch_result_get fetch l k :
  dict_get k (snd (fetch_stock_data fetch l)) =
  if existsb (String.eqb k) l then outcome_window (process_ticker fetch k)
  else None.
Proof.
  unfold fetch_stock_data. rewrite batch_result_flat by lia.
  rewrite get_fold_record. simpl.
  destruct (existsb (String.eqb k) l); [|reflexivity].
  destruct (process_ticker fetch k); reflexivity.
Qed.

(** ** Batch orchestration claims *)

Local Open Scope string_scope.

(** C2: a history of fewer than 200 bars gives [InsufficientData], the
    ticker's step ends in the [else] branch (a log line, no exception) and
    the ticker is absent from the result of any run. *)
Theorem short_history_skipped fetch t info h tickers :
  fetch t = Fetched info h -> (length (h_bars h) < min_bars)%nat ->
  compute (h_bars h) = InsufficientData /\
  process_ticker fetch t = Skipped /\
  dict_get t (snd (fetch_stock_data fetch tickers)) = None.
Proof.
  intros Hf Hlen.
  assert (Hc : compute (h_bars h) = InsufficientData).
  { unfold compute. destruct (Nat.leb_spec min_bars (length (h_bars h)));
      [lia|reflexivity]. }
  assert (Hp : process_ticker fetch t = Skipped).
  { unfold process_ticker. now rewrite Hf, Hc. }
  split; [exact Hc|]. split; [exact Hp|].
  rewrite batch_result_get, Hp. now destruct (existsb _ _).
Qed.

Lemma short_history_skipped_witness :
  fetch_short "NEW" = Fetched [] (mkHistory None (ramp 150)) /\
  (length (h_bars (mkHistory None (ramp 150))) < min_bars)%nat /\
  (compute (h_bars (mkHistory None (ramp 150))) = InsufficientData /\
   process_ticker fetch_short "NEW" = Skipped /\
   dict_get "NEW" (snd (fetch_stock_data fetch_short ["NEW"; "OLD"])) = None).
Proof.
  split; [reflexivity|]. split; [vm_compute; lia|].
  apply (short_history_skipped fetch_short "NEW" [] (mkHistory None (ramp 150))).
  - reflexivity.
  - vm_compute; lia.
Defined.

(** C4: a ticker is in the result exactly when its own step records a
    window; an exception for one ticker only removes that ticker.  With
    three tickers where fetching the second raises, the result holds the
    first and the third ticker's windows, in that order. *)
Theorem fetch_stock_data_isolates_failures :
  (forall fetch tickers k,
     dict_get k (snd (fetch_stock_data fetch tickers)) =
     if existsb (String.eqb k) tickers
     then outcome_window (process_ticker fetch k) else None) /\
  (forall fetch t1 t2 t3 e w1 w3,
     t1 <> t3 ->
     process_ticker fetch t1 = Recorded w1 ->
     fetch t2 = FetchError e ->
     process_ticker fetch t3 = Recorded w3 ->
     snd (fetch_stock_data fetch [t1; t2; t3]) = [(t1, w1); (t3, w3)]).
Proof.
  split; [exact batch_result_get|].
  intros fetch t1 t2 t3 e w1 w3 H13 H1 H2 H3.
  unfold fetch_stock_data. rewrite batch_result_flat by lia.
  simpl. unfold record_ticker at 3 2 1.
  rewrite H1. simpl.
  assert (P2 : process_ticker fetch t2 = Failed e)
    by (unfold process_ticker; now rewrite H2).
  rewrite P2, H3. simpl.
  destruct (String.eqb_spec t3 t1) as [E|_]; [congruence|reflexivity].
Qed.

Lemma fetch_stock_data_isolates_failures_witness :
  snd (fetch_stock_data fetch_abc ["A"; "B"; "C"]) =
  [("A"%string, recent_window (mkHistory (Some "America/New_York"%string) (ramp 250))
                  (indicators (ramp 250)) "A" [("sector"%string, "Technology"%string)]);
   ("C"%string, recent_window (mkHistory (Some "America/New_York"%string) (ramp 250))
                  (indicators (ramp 250)) "C" [("sector"%string, "Technology"%string)])].
Proof.
  apply (proj2 fetch_stock_data_isolates_failures fetch_abc "A" "B" "C"
           "HTTP Error 404").
  - discriminate.
  - reflexivity.
  - reflexivity.
  - reflexivity.
Defined.

(** C7: grouping the tickers by 50 or by 1 gives the same BatchResult
    (same keys, same windows, same order); only the printed batch lines
    differ. *)
Theorem batch_size_transparent fetch tickers :
  snd (fetch_stock_data fetch tickers) = snd (fetch_stock_data_bs 1 fetch tickers).
Proof.
  unfold fetch_stock_data.
  rewrite !batch_result_flat by lia. reflexivity.
Qed.

(** C8: when the ticker list comes back empty (an empty table, or a
    caught ImportError, RequestException or ValueError), the script writes
    neither the CSV nor the Excel file (the Excel file is not even opened)
    and ends by printing
    "No tickers retrieved. Please check dependencies and try again.",
    whether or not openpyxl is installed. *)
Theorem main_no_tickers_no_report r fetch has_openpyxl :
  snd (get_sp500_tickers_wikipedia r) = inl [] ->
  existsb writes_file (main r fetch has_openpyxl) = false /\
  last (main r fetch has_openpyxl) (Uncaught "") =
  Print (MsgText "No tickers retrieved. Please check dependencies and try again.").
Proof.
  intros H.
  destruct r as [l|[] e]; simpl in H; try discriminate;
    [injection H as ->|..]; split; reflexivity.
Qed.

Lemma main_no_tickers_no_report_witness :
  snd (get_sp500_tickers_wikipedia (WikiRaises RequestErr "Connection refused")) = inl [] /\
  (existsb writes_file (main (WikiRaises RequestErr "Connection refused") fetch_abc true) = false /\
   last (main (WikiRaises RequestErr "Connection refused") fetch_abc true) (Uncaught "") =
   Print (MsgText "No tickers retrieved. Please check dependencies and try again.")).
Proof.
  split; [reflexivity|].
  apply main_no_tickers_no_report. reflexivity.
Defined.

(** ** Facts about the indicator block *)

Lemma compute_computed bars ind :
  compute bars = Computed ind ->
  ind = indicators bars /\ (min_bars <= length bars)%nat.
Proof.
  unfold compute. destruct (Nat.leb_spec min_bars (length bars)) as [Hle|Hlt];
    intros Hc; [injection Hc as <-; auto | discriminate].
Qed.

Lemma map_nth_seq {A} (l : list A) d :
  map (fun i => nth i l d) (seq 0 (length l)) = l.
Proof.
  induction l as [|a l IH]; [reflexivity|].
  simpl. f_equal. rewrite <- seq_shift, map_map. exact IH.
Qed.

Lemma xsub_fin a b : xsub (Fin a) (Fin b) = Fin (Qred (a - b)).
Proof.
  unfold xsub, xadd, xneg. f_equal. apply Qred_complete.
  rewrite Qred_correct. reflexivity.
Qed.

Lemma zip_with_xsub_fin l1 l2 :
  zip_with xsub (map Fin l1) (map Fin l2) =
  zip_with (fun a b => Fin (Qred (a - b))) l1 l2.
Proof.
  revert l2; induction l1 as [|a l1 IH]; intros [|b l2];
    cbn [zip_with map]; auto.
  rewrite xsub_fin, IH. reflexivity.
Qed.

(** ** Indicator claims *)

(** C9: the report window of a recorded ticker has 5 rows whose open,
    high, low, close and volume are those of the last 5 input bars, in
    the input order; the indicator block only adds columns. *)
Theorem report_window_keeps_bars fetch t info h w :
  fetch t = Fetched info h ->
  process_ticker fetch t = Recorded w ->
  length (w_rows w) = 5%nat /\
  map row_ohlcv (w_rows w) = map bar_ohlcv (tail_n 5 (h_bars h)).
Proof.
  intros Hf Hp. unfold process_ticker in Hp. rewrite Hf in Hp.
  destruct (compute (h_bars h)) as [|ind] eqn:Hc; [discriminate|].
  injection Hp as <-. apply compute_computed in Hc as [_ Hlen].
  unfold min_bars in Hlen.
  assert (Hrows : w_rows (recent_window h ind t info) =
    tail_n 5 (map (row_at (h_bars h) ind t info) (seq 0 (length (h_bars h))))).
  { unfold recent_window. destruct (h_tz h); reflexivity. }
  rewrite Hrows. unfold tail_n. rewrite length_map, length_seq, skipn_map.
  split.
  - rewrite length_map, length_skipn, length_seq. lia.
  - rewrite map_map.
    transitivity (map bar_ohlcv (skipn (length (h_bars h) - 5)
      (map (fun i => nth i (h_bars h) dummy_bar) (seq 0 (length (h_bars h)))))).
    + rewrite skipn_map, map_map. reflexivity.
    + rewrite map_nth_seq. reflexivity.
Qed.

Lemma report_window_keeps_bars_witness :
  length (w_rows (recent_window (mkHistory (Some "America/New_York"%string) (ramp 250))
                    (indicators (ramp 250)) "A" [("sector"%string, "Technology"%string)])) = 5%nat /\
  map row_ohlcv (w_rows (recent_window (mkHistory (Some "America/New_York"%string) (ramp 250))
                    (indicators (ramp 250)) "A" [("sector"%string, "Technology"%string)])) =
  map bar_ohlcv (tail_n 5 (ramp 250)).
Proof.
  apply (report_window_keeps_bars fetch_abc "A" [("sector"%string, "Technology"%string)]
           (mkHistory (Some "America/New_York"%string) (ramp 250))).
  - reflexivity.
  - reflexivity.
Defined.

(** C5: the MACD line is EMA(close, 12, adjusted) - EMA(close, 26,
    adjusted), the signal is EMA(line, 9, unadjusted), all three columns
    are defined at every bar, and the histogram at each bar is exactly the
    line minus the signal. *)
Theorem macd_hist_is_difference bars ind :
  compute bars = Computed ind ->
  macd_line ind =
    map Fin (zip_with (fun a b => Qred (a - b))
               (ewm_adjusted 12 (map b_close bars))
               (ewm_adjusted 26 (map b_close bars))) /\
  macd_signal ind = map Fin (ewm_unadjusted 9 (macd_line_q bars)) /\
  macd_hist ind =
    zip_with (fun a b => Fin (Qred (a - b)))
      (macd_line_q bars) (ewm_unadjusted 9 (macd_line_q bars)).
Proof.
  intros Hc. apply compute_computed in Hc as [-> _].
  split; [reflexivity|]. split; [reflexivity|].
  simpl. unfold macd_hist_col, macd_line_col, macd_signal_col.
  apply zip_with_xsub_fin.
Qed.

Lemma macd_hist_is_difference_witness :
  macd_line (indicators (ramp 200)) =
    map Fin (zip_with (fun a b => Qred (a - b))
               (ewm_adjusted 12 (map b_close (ramp 200)))
               (ewm_adjusted 26 (map b_close (ramp 200)))) /\
  macd_signal (indicators (ramp 200)) =
    map Fin (ewm_unadjusted 9 (macd_line_q (ramp 200))) /\
  macd_hist (indicators (ramp 200)) =
    zip_with (fun a b => Fin (Qred (a - b)))
      (macd_line_q (ramp 200)) (ewm_unadjusted 9 (macd_line_q (ramp 200))).
Proof.
  apply (macd_hist_is_difference (ramp 200)). reflexivity.
Defined.

(** ** Arithmetic on finite values *)

Lemma fold_xadd_fin qs a :
  exists s, fold_left xadd (map Fin qs) (Fin a) = Fin s /\
            s == a + fold_right Qplus 0 qs.
Proof.
  revert a; induction qs as [|q r IH]; intros a; simpl.
  - exists a. split; [reflexivity|lra].
  - destruct (IH (Qred (a + q))) as [s [Hs Heq]]. exists s. split; [exact Hs|].
    rewrite Heq, Qred_correct. lra.
Qed.

Lemma sum_nonneg qs :
  Forall (Qle 0) qs -> 0 <= fold_right Qplus 0 qs.
Proof. induction 1; simpl; lra. Qed.

Lemma sum_pos qs q :
  Forall (Qle 0) qs -> In q qs -> 0 < q -> 0 < fold_right Qplus 0 qs.
Proof.
  induction 1 as [|x r Hx Hr IH]; simpl; [tauto|].
  intros [->|Hin] Hq.
  - pose proof (sum_nonneg r Hr). lra.
  - specialize (IH Hin Hq). lra.
Qed.

Lemma sum_zero qs :
  Forall (fun q => q == 0) qs -> fold_right Qplus 0 qs == 0.
Proof. induction 1; simpl; lra. Qed.

Lemma existsb_is_nan_fin qs : existsb is_nan (map Fin qs) = false.
Proof. induction qs; simpl; auto. Qed.

Lemma qsign_inject_nat_pos w : (0 < w)%nat -> qsign (inject_nat w) = Gt.
Proof.
  intros Hw. unfold qsign, inject_nat. apply Qgt_alt.
  unfold Qlt. simpl. lia.
Qed.

Lemma fin_list (P : Q -> Prop) l :
  (forall x, In x l -> exists q, x = Fin q /\ P q) ->
  exists qs, l = map Fin qs /\ Forall P qs.
Proof.
  induction l as [|x r IH]; intros H; [exists []; auto|].
  destruct (H x (or_introl eq_refl)) as [q [-> Hq]].
  destruct IH as [qs [-> Hqs]]; [intros y Hy; apply H; now right|].
  exists (q :: qs). auto.
Qed.

Lemma xmean_map_fin w qs :
  (0 < w)%nat ->
  exists s, s == fold_right Qplus 0 qs /\
            xmean w (map Fin qs) = Fin (Qred (s / inject_nat w)).
Proof.
  intros Hw. unfold xmean. rewrite existsb_is_nan_fin.
  unfold xsum. destruct (fold_xadd_fin qs 0) as [s [Hs Heq]].
  exists s. split; [rewrite Heq; lra|].
  rewrite Hs. unfold xdiv. rewrite qsign_inject_nat_pos by exact Hw.
  reflexivity.
Qed.

Lemma xstd_map_fin w qs :
  (1 < w)%nat -> exists v, xstd w (map Fin qs) = Fin v.
Proof.
  intros Hw. unfold xstd.
  destruct (xmean_map_fin w qs) as [s [_ ->]]; [lia|].
  set (m := Qred (s / inject_nat w)).
  rewrite map_map.
  rewrite (map_ext _ (fun q => Fin (Qred (Qred (q - m) * Qred (q - m)))))
    by (intros q; now rewrite xsub_fin).
  rewrite <- (map_map (fun q => Qred (Qred (q - m) * Qred (q - m))) Fin).
  unfold xsum. destruct (fold_xadd_fin (map (fun q => Qred (Qred (q - m) * Qred (q - m))) qs) 0)
    as [t [-> _]].
  unfold xdiv. rewrite qsign_inject_nat_pos by lia.
  eexists; reflexivity.
Qed.

Lemma qsign_eq a : qsign a = Eq -> a == 0.
Proof. unfold qsign. apply Qeq_alt. Qed.

(** a ratio of two finite values is NaN only for 0/0 *)
Lemma xdiv_fin_nan g l :
  xdiv (Fin g) (Fin l) = NaN -> g == 0 /\ l == 0.
Proof.
  unfold xdiv. destruct (qsign l) eqn:El; try discriminate.
  unfold inf_scale. destruct (qsign g) eqn:Eg; try (destruct true; discriminate).
  intros _. split; apply qsign_eq; assumption.
Qed.

Lemma rsi_of_rs_nan x : rsi_of_rs x = NaN -> x = NaN.
Proof.
  destruct x as [r| | |]; try reflexivity; try discriminate.
  unfold rsi_of_rs. cbn [xadd]. unfold xdiv.
  destruct (qsign (Qred (1 + r))); discriminate.
Qed.

(** ** Windows *)

Lemma window_map {A B} (f : A -> B) w i l :
  window w i (map f l) = map f (window w i l).
Proof. unfold window. now rewrite skipn_map, firstn_map. Qed.

Lemma length_window {A} w i (l : list A) :
  (w <= S i)%nat -> (i < length l)%nat -> length (window w i l) = w.
Proof.
  intros H1 H2. unfold window. rewrite length_firstn, length_skipn. lia.
Qed.

Lemma in_window_nth {A} w i (l : list A) d x :
  (w <= S i)%nat -> In x (window w i l) ->
  exists j, (S i - w <= j)%nat /\ (j <= i)%nat /\ (j < length l)%nat /\ nth j l d = x.
Proof.
  intros Hw Hin. apply (In_nth _ _ d) in Hin as [k [Hk Hn]].
  unfold window in Hk, Hn. rewrite length_firstn, length_skipn in Hk.
  rewrite nth_firstn in Hn.
  replace (k <? w)%nat with true in Hn by (symmetry; apply Nat.ltb_lt; lia).
  rewrite nth_skipn in Hn.
  exists (S i - w + k)%nat. repeat split; try lia. exact Hn.
Qed.

Lemma nth_map_lt {A B} (f : A -> B) l j d d' :
  (j < length l)%nat -> nth j (map f l) d = f (nth j l d').
Proof.
  intros Hj. rewrite (nth_indep _ d (f d')) by (rewrite length_map; exact Hj).
  apply map_nth.
Qed.

(** the mean of a full window whose entries are finite *)
Lemma rolling_mean_fin w col i (P : Q -> Prop) :
  (0 < w)%nat -> (w <= S i)%nat -> (i < length col)%nat ->
  (forall j, (S i - w <= j)%nat -> (j <= i)%nat ->
     exists q, nth j col NaN = Fin q /\ P q) ->
  exists qs s,
    Forall P qs /\ s == fold_right Qplus 0 qs /\
    window w i col = map Fin qs /\
    nth i (rolling w (xmean w) col) NaN = Fin (Qred (s / inject_nat w)).
Proof.
  intros Hw0 Hw Hi Hcol.
  destruct (fin_list P (window w i col)) as [qs [Hwin HP]].
  { intros x Hx. destruct (in_window_nth w i col NaN x Hw Hx)
      as [j [Hj1 [Hj2 [_ <-]]]].
    apply Hcol; assumption. }
  destruct (xmean_map_fin w qs Hw0) as [s [Hs Hmean]].
  exists qs, s. repeat split; try assumption.
  rewrite nth_rolling by exact Hi.
  replace (S i <? w)%nat with false by (symmetry; apply Nat.ltb_ge; lia).
  rewrite Hwin. exact Hmean.
Qed.

Lemma rolling_early {A} w agg (l : list A) i :
  (S i < w)%nat -> nth i (rolling w agg l) NaN = NaN.
Proof.
  intros H. destruct (Nat.lt_ge_cases i (length l)) as [Hi|Hi].
  - rewrite nth_rolling by exact Hi.
    replace (S i <? w)%nat with true by (symmetry; apply Nat.ltb_lt; lia).
    reflexivity.
  - apply nth_overflow. rewrite length_rolling. exact Hi.
Qed.

(** ** Rolling minimum and maximum *)

Lemma fold_min_fin qs a :
  exists m, fold_left xmin2 (map Fin qs) (Fin a) = Fin m /\
            m <= a /\ Forall (fun q => m <= q) qs.
Proof.
  revert a; induction qs as [|q r IH]; intros a; simpl.
  - exists a. split; [reflexivity|]. split; [apply Qle_refl|constructor].
  - assert (Hx : xmin2 (Fin a) (Fin q) = Fin (if Qle_bool a q then a else q))
      by (unfold xmin2, xlt, Qlt_bool; destruct (Qle_bool a q); reflexivity).
    rewrite Hx.
    destruct (IH (if Qle_bool a q then a else q)) as [m [Hm [Hle Hall]]].
    exists m. split; [exact Hm|].
    destruct (Qle_bool a q) eqn:E.
    + apply Qle_bool_iff in E. split; [exact Hle|]. constructor; [lra|exact Hall].
    + assert (q < a) by (apply Qnot_le_lt; intros C; apply Qle_bool_iff in C; congruence).
      split; [lra|]. constructor; [exact Hle|exact Hall].
Qed.

Lemma fold_max_fin qs a :
  exists m, fold_left xmax2 (map Fin qs) (Fin a) = Fin m /\
            a <= m /\ Forall (fun q => q <= m) qs.
Proof.
  revert a; induction qs as [|q r IH]; intros a; simpl.
  - exists a. split; [reflexivity|]. split; [apply Qle_refl|constructor].
  - assert (Hx : xmax2 (Fin a) (Fin q) = Fin (if Qle_bool q a then a else q))
      by (unfold xmax2, xlt, Qlt_bool; destruct (Qle_bool q a); reflexivity).
    rewrite Hx.
    destruct (IH (if Qle_bool q a then a else q)) as [m [Hm [Hle Hall]]].
    exists m. split; [exact Hm|].
    destruct (Qle_bool q a) eqn:E.
    + apply Qle_bool_iff in E. split; [exact Hle|]. constructor; [lra|exact Hall].
    + assert (a < q) by (apply Qnot_le_lt; intros C; apply Qle_bool_iff in C; congruence).
      split; [lra|]. constructor; [exact Hle|exact Hall].
Qed.

Lemma low_14_fin bars i :
  (13 <= i)%nat -> (i < length bars)%nat ->
  exists m, nth i (low_14 bars) NaN = Fin m /\
    forall j, (i - 13 <= j)%nat -> (j <= i)%nat -> m <= b_low (nth j bars dummy_bar).
Proof.
  intros H13 Hi. unfold low_14.
  rewrite nth_rolling by (unfold lows; rewrite length_map; exact Hi).
  replace (S i <? 14)%nat with false by (symmetry; apply Nat.ltb_ge; lia).
  unfold lows. rewrite <- (map_map b_low Fin), window_map.
  assert (Hlen : length (window 14 i (map b_low bars)) = 14%nat)
    by (apply length_window; [lia|rewrite length_map; exact Hi]).
  destruct (window 14 i (map b_low bars)) as [|q0 qs] eqn:Ew; [discriminate|].
  unfold xmin_all. cbn [map existsb is_nan orb]. rewrite existsb_is_nan_fin.
  destruct (fold_min_fin qs q0) as [m [Hm [H0 Hall]]].
  exists m. split; [exact Hm|].
  intros j Hj1 Hj2.
  pose proof (nth_in_window 14 i j (map b_low bars) (b_low dummy_bar)) as Hin.
  specialize (Hin ltac:(lia) ltac:(lia) ltac:(rewrite length_map; exact Hi) ltac:(lia)).
  rewrite Ew, map_nth in Hin. destruct Hin as [<-|Hin]; [exact H0|].
  rewrite Forall_forall in Hall. now apply Hall.
Qed.

Lemma high_14_fin bars i :
  (13 <= i)%nat -> (i < length bars)%nat ->
  exists m, nth i (high_14 bars) NaN = Fin m /\
    forall j, (i - 13 <= j)%nat -> (j <= i)%nat -> b_high (nth j bars dummy_bar) <= m.
Proof.
  intros H13 Hi. unfold high_14.
  rewrite nth_rolling by (unfold highs; rewrite length_map; exact Hi).
  replace (S i <? 14)%nat with false by (symmetry; apply Nat.ltb_ge; lia).
  unfold highs. rewrite <- (map_map b_high Fin), window_map.
  assert (Hlen : length (window 14 i (map b_high bars)) = 14%nat)
    by (apply length_window; [lia|rewrite length_map; exact Hi]).
  destruct (window 14 i (map b_high bars)) as [|q0 qs] eqn:Ew; [discriminate|].
  unfold xmax_all. cbn [map existsb is_nan orb]. rewrite existsb_is_nan_fin.
  destruct (fold_max_fin qs q0) as [m [Hm [H0 Hall]]].
  exists m. split; [exact Hm|].
  intros j Hj1 Hj2.
  pose proof (nth_in_window 14 i j (map b_high bars) (b_high dummy_bar)) as Hin.
  specialize (Hin ltac:(lia) ltac:(lia) ltac:(rewrite length_map; exact Hi) ltac:(lia)).
  rewrite Ew, map_nth in Hin. destruct Hin as [<-|Hin]; [exact H0|].
  rewrite Forall_forall in Hall. now apply Hall.
Qed.

(** ** Entries of the derived columns *)

Lemma nth_closes bars j :
  (j < length bars)%nat -> nth j (closes bars) NaN = Fin (b_close (nth j bars dummy_bar)).
Proof.
  intros Hj. unfold closes.
  exact (nth_map_lt (fun b => Fin (b_close b)) bars j NaN dummy_bar Hj).
Qed.

Lemma length_closes bars : length (closes bars) = length bars.
Proof. apply length_map. Qed.

Lemma nth_diff s j :
  (0 < j)%nat -> (j < length s)%nat ->
  nth j (diff s) NaN = xsub (nth j s NaN) (nth (j - 1) s NaN).
Proof.
  intros H0 Hj. destruct s as [|x r]; simpl in Hj; [lia|].
  destruct j as [|k]; [lia|].
  replace (S k - 1)%nat with k by lia.
  cbn [diff].
  change (nth (S k) (NaN :: zip_with xsub r (x :: r)) NaN)
    with (nth k (zip_with xsub r (x :: r)) NaN).
  change (nth (S k) (x :: r) NaN) with (nth k r NaN).
  apply nth_zip_with; simpl; lia.
Qed.

Lemma nth_gain bars j :
  (j < length bars)%nat ->
  nth j (gain_col bars) NaN =
  if (j =? 0)%nat then Fin 0
  else let d := Qred (b_close (nth j bars dummy_bar) - b_close (nth (j - 1) bars dummy_bar)) in
       if Qlt_bool 0 d then Fin d else Fin 0.
Proof.
  intros Hj. unfold gain_col.
  rewrite (nth_map_lt _ _ _ _ NaN) by (rewrite length_diff, length_closes; exact Hj).
  destruct j as [|k].
  - destruct bars; [simpl in Hj; lia|reflexivity].
  - rewrite nth_diff by (try rewrite length_closes; lia).
    rewrite !nth_closes by lia. rewrite xsub_fin. reflexivity.
Qed.

Lemma nth_loss bars j :
  (j < length bars)%nat ->
  nth j (loss_col bars) NaN =
  if (j =? 0)%nat then Fin 0
  else let d := Qred (b_close (nth j bars dummy_bar) - b_close (nth (j - 1) bars dummy_bar)) in
       if Qlt_bool d 0 then Fin (Qred (- d)) else Fin 0.
Proof.
  intros Hj. unfold loss_col.
  rewrite (nth_map_lt _ _ _ _ NaN) by (rewrite length_diff, length_closes; exact Hj).
  destruct j as [|k].
  - destruct bars; [simpl in Hj; lia|reflexivity].
  - rewrite nth_diff by (try rewrite length_closes; lia).
    rewrite !nth_closes by lia. rewrite xsub_fin. cbv zeta.
    unfold xlt. destruct (Qlt_bool _ 0); reflexivity.
Qed.

Lemma length_gain bars : length (gain_col bars) = length bars.
Proof. unfold gain_col. now rewrite length_map, length_diff, length_closes. Qed.

Lemma length_loss bars : length (loss_col bars) = length bars.
Proof. unfold loss_col. now rewrite length_map, length_diff, length_closes. Qed.

Lemma nth_shift_closes bars j :
  (j < length bars)%nat ->
  nth j (shift (closes bars)) NaN =
  if (j =? 0)%nat then NaN else Fin (b_close (nth (j - 1) bars dummy_bar)).
Proof.
  intros Hj. destruct bars as [|b r]; [simpl in Hj; lia|].
  destruct j as [|k]; [reflexivity|].
  unfold shift. cbn [closes map]. cbn [nth].
  rewrite removelast_firstn_len, nth_firstn.
  replace (k <? pred (length (Fin (b_close b) :: map (fun b0 => Fin (b_close b0)) r)))%nat
    with true by (symmetry; apply Nat.ltb_lt; simpl in *; rewrite length_map; lia).
  replace (S k - 1)%nat with k by lia.
  change (Fin (b_close b) :: map (fun b0 => Fin (b_close b0)) r) with (closes (b :: r)).
  apply nth_closes. simpl in *. lia.
Qed.

Ltac col_len :=
  unfold highs, lows, closes in *;
  repeat rewrite ?length_zip_with, ?length_map, ?length_shift, ?length_rolling,
    ?length_diff, ?length_gain, ?length_loss;
  lia.

Lemma xmax_skipna_fin a r :
  Forall (fun x => x = NaN \/ exists q, x = Fin q) r ->
  exists q, xmax_skipna (Fin a :: r) = Fin q.
Proof.
  intros Hr. unfold xmax_skipna. cbn [filter is_nan negb].
  destruct (fin_list (fun _ => True) (filter (fun x => negb (is_nan x)) r))
    as [qs [Hqs _]].
  { intros x Hx. apply filter_In in Hx as [Hx Hn].
    rewrite Forall_forall in Hr. destruct (Hr x Hx) as [->|[q ->]];
      [discriminate|eauto]. }
  rewrite Hqs. unfold xmax_all. cbn [map existsb is_nan orb].
  rewrite existsb_is_nan_fin.
  destruct (fold_max_fin qs a) as [m [-> _]]. eauto.
Qed.

Lemma true_range_fin bars j :
  (j < length bars)%nat -> exists q, nth j (true_range bars) NaN = Fin q.
Proof.
  intros Hj. unfold true_range. cbv zeta.
  rewrite (nth_zip_with _ _ _ _ _ NaN (NaN, NaN)) by col_len.
  rewrite (nth_zip_with _ _ _ _ _ NaN NaN) by col_len.
  rewrite (nth_zip_with pair _ _ _ _ NaN NaN) by col_len.
  rewrite !(nth_map_lt xabs _ _ _ NaN) by col_len.
  rewrite !(nth_zip_with xsub _ _ _ _ NaN NaN) by col_len.
  unfold highs, lows.
  rewrite !(nth_map_lt _ bars j NaN dummy_bar) by exact Hj.
  rewrite nth_shift_closes by exact Hj. cbn [fst snd].
  rewrite xsub_fin. apply xmax_skipna_fin.
  destruct (j =? 0)%nat; rewrite ?xsub_fin;
    repeat (apply Forall_cons; [solve [left; reflexivity | right; eexists; reflexivity]|]);
    apply Forall_nil.
Qed.

Lemma nth_rsi bars t :
  (t < length bars)%nat ->
  nth t (rsi_col bars) NaN =
  rsi_of_rs (xdiv (nth t (avg_gain bars) NaN) (nth t (avg_loss bars) NaN)).
Proof.
  intros Ht. unfold rsi_col.
  rewrite (nth_map_lt _ _ _ _ NaN) by (unfold avg_gain, avg_loss; col_len).
  f_equal. apply nth_zip_with; unfold avg_gain, avg_loss; col_len.
Qed.

Lemma Qred_div14_nonneg s : 0 <= s -> 0 <= Qred (s / inject_nat 14).
Proof.
  intros Hs. rewrite Qred_correct. apply Qle_shift_div_l; [reflexivity|lra].
Qed.

Lemma Qred_div14_pos s : 0 < s -> 0 < Qred (s / inject_nat 14).
Proof.
  intros Hs. rewrite Qred_correct. apply Qlt_shift_div_l; [reflexivity|lra].
Qed.

Lemma Qred_div14_zero s : s == 0 -> Qred (s / inject_nat 14) = 0.
Proof.
  intros Hs. change 0 with (Qred 0). apply Qred_complete. rewrite Hs. reflexivity.
Qed.

(** the 14-bar average gain: non-negative, positive when a close in the
    window rises, zero when none rises *)
Lemma avg_gain_facts bars t :
  (13 <= t)%nat -> (t < length bars)%nat ->
  exists g, nth t (avg_gain bars) NaN = Fin g /\ 0 <= g /\
    ((exists j, (t - 13 <= j)%nat /\ (j <= t)%nat /\ (0 < j)%nat /\
        close_at bars (j - 1)%nat < close_at bars j) -> 0 < g) /\
    ((forall j, (t - 13 <= j)%nat -> (j <= t)%nat -> (0 < j)%nat ->
        close_at bars j <= close_at bars (j - 1)%nat) -> g = 0).
Proof.
  intros H13 Ht.
  destruct (rolling_mean_fin 14 (gain_col bars) t (Qle 0)) as [qs [s [Hqs [Hs [Hwin Hval]]]]];
    try lia; [rewrite length_gain; exact Ht| |].
  { intros j Hj1 Hj2. rewrite nth_gain by lia.
    destruct (j =? 0)%nat; [eexists; split; [reflexivity|lra]|].
    cbv zeta. destruct (Qlt_bool 0 _) eqn:E; (eexists; split; [reflexivity|]).
    - unfold Qlt_bool in E. apply negb_true_iff in E.
      apply Qlt_le_weak, Qnot_le_lt. intros C. apply Qle_bool_iff in C. congruence.
    - lra. }
  exists (Qred (s / inject_nat 14)). split; [exact Hval|].
  pose proof (sum_nonneg qs Hqs) as Hsum.
  split; [apply Qred_div14_nonneg; lra|]. split.
  - intros [j [Hj1 [Hj2 [Hj0 Hlt]]]]. apply Qred_div14_pos.
    assert (Hin : In (nth j (gain_col bars) NaN) (map Fin qs)).
    { rewrite <- Hwin. apply nth_in_window; try lia. rewrite length_gain. lia. }
    rewrite nth_gain in Hin by lia.
    replace (j =? 0)%nat with false in Hin by (symmetry; apply Nat.eqb_neq; lia).
    unfold close_at in Hlt. cbv zeta in Hin.
    set (d := Qred (b_close (nth j bars dummy_bar) - b_close (nth (j - 1) bars dummy_bar))) in Hin.
    assert (Hd : 0 < d) by (unfold d; rewrite Qred_correct; lra).
    replace (Qlt_bool 0 d) with true in Hin.
    + apply in_map_iff in Hin as [q [Hq Hin]]. injection Hq as ->.
      pose proof (sum_pos qs d Hqs Hin Hd). lra.
    + unfold Qlt_bool. symmetry. apply negb_true_iff.
      destruct (Qle_bool d 0) eqn:E; [|reflexivity].
      apply Qle_bool_iff in E. lra.
  - intros Hall.
    destruct (rolling_mean_fin 14 (gain_col bars) t (fun q => q == 0))
      as [qs' [s' [Hqs' [Hs' [_ Hval']]]]]; try lia; [rewrite length_gain; exact Ht| |].
    + intros j Hj1 Hj2. rewrite nth_gain by lia.
      destruct (j =? 0)%nat eqn:Ej; [eexists; split; [reflexivity|reflexivity]|].
      apply Nat.eqb_neq in Ej. specialize (Hall j Hj1 Hj2 ltac:(lia)). unfold close_at in Hall.
      cbv zeta. destruct (Qlt_bool 0 _) eqn:E; (eexists; split; [reflexivity|]).
      * unfold Qlt_bool in E. apply negb_true_iff in E.
        match type of E with
        | Qle_bool ?d 0 = false =>
            assert (Qle_bool d 0 = true)
              by (apply Qle_bool_iff; rewrite Qred_correct; lra); congruence
        end.
      * reflexivity.
    + assert (E : Qred (s / inject_nat 14) = Qred (s' / inject_nat 14)) by congruence.
      rewrite E. apply Qred_div14_zero. rewrite Hs'. apply sum_zero. exact Hqs'.
Qed.

(** the 14-bar average loss is zero when no close in the window falls *)
Lemma avg_loss_zero bars t :
  (13 <= t)%nat -> (t < length bars)%nat ->
  (forall j, (t - 13 <= j)%nat -> (j <= t)%nat -> (0 < j)%nat ->
     close_at bars (j - 1)%nat <= close_at bars j) ->
  nth t (avg_loss bars) NaN = Fin 0.
Proof.
  intros H13 Ht Hall.
  destruct (rolling_mean_fin 14 (loss_col bars) t (fun q => q == 0))
    as [qs [s [Hqs [Hs [_ Hval]]]]]; try lia; [rewrite length_loss; exact Ht| |].
  - intros j Hj1 Hj2. rewrite nth_loss by lia.
    destruct (j =? 0)%nat eqn:Ej; [eexists; split; [reflexivity|reflexivity]|].
    apply Nat.eqb_neq in Ej. specialize (Hall j Hj1 Hj2 ltac:(lia)). unfold close_at in Hall.
    cbv zeta. destruct (Qlt_bool _ 0) eqn:E; (eexists; split; [reflexivity|]).
    + unfold Qlt_bool in E. apply negb_true_iff in E.
      match type of E with
      | Qle_bool 0 ?d = false =>
          assert (Qle_bool 0 d = true)
            by (apply Qle_bool_iff; rewrite Qred_correct; lra); congruence
      end.
    + reflexivity.
  - unfold avg_loss. rewrite Hval. f_equal. apply Qred_div14_zero.
    rewrite Hs. apply sum_zero. exact Hqs.
Qed.

Lemma xdiv_by_zero_pos g : 0 < g -> xdiv (Fin g) (Fin 0) = PInf.
Proof.
  intros Hg. unfold xdiv, inf_scale, qsign. cbn [Qcompare].
  replace (Qcompare g 0) with Gt by (symmetry; apply Qgt_alt; exact Hg). reflexivity.
Qed.

Lemma rsi_of_rs_pinf : rsi_of_rs PInf = Fin 100.
Proof. reflexivity. Qed.

Lemma close_at_flat n j : (j < n)%nat -> close_at (flat n) j = 10.
Proof.
  intros Hj. unfold close_at, flat.
  rewrite (nth_map_lt _ _ _ _ 0%nat) by (rewrite length_seq; exact Hj). reflexivity.
Qed.

Lemma close_at_ramp n j : (j < n)%nat -> close_at (ramp n) j = inject_nat (100 + j).
Proof.
  intros Hj. unfold close_at, ramp.
  rewrite (nth_map_lt _ _ _ _ 0%nat) by (rewrite length_seq; exact Hj).
  rewrite seq_nth by exact Hj. reflexivity.
Qed.

Lemma inject_nat_le a b : (a <= b)%nat -> inject_nat a <= inject_nat b.
Proof. intros H. unfold inject_nat. rewrite <- Zle_Qle. lia. Qed.

Lemma inject_nat_lt a b : (a < b)%nat -> inject_nat a < inject_nat b.
Proof. intros H. unfold inject_nat. rewrite <- Zlt_Qlt. lia. Qed.

(** C3, as stated, fails: over 200 identical bars the closes are
    non-decreasing and the average loss at bar 20 is 0, yet the rsi there
    is undefined, since the average gain is 0 too and [rs] is 0/0. *)
Lemma rsi_flat_window_counterexample :
  compute (flat 200) = Computed (indicators (flat 200)) /\
  (forall j, (7 <= j)%nat -> (j <= 20)%nat -> (0 < j)%nat ->
     close_at (flat 200) (j - 1)%nat <= close_at (flat 200) j) /\
  nth 20 (avg_loss (flat 200)) NaN = Fin 0 /\
  nth 20 (rsi (indicators (flat 200))) NaN = NaN.
Proof.
  split; [reflexivity|]. split.
  - intros j Hj1 Hj2 Hj0. rewrite !close_at_flat by lia. lra.
  - split; [vm_compute; reflexivity|].
    change (nth 20 (rsi_col (flat 200)) NaN = NaN). vm_compute. reflexivity.
Qed.

(** C3 (amended): at a bar [t >= 13] whose 14 one-bar close changes
    (bars [t-13] to [t]) are all non-negative, the average loss is 0; the
    rsi is exactly 100 when at least one of those closes rises, and it is
    undefined (NaN, from 0/0) when none rises. *)
Theorem rsi_nondecreasing_window bars ind t :
  compute bars = Computed ind ->
  (13 <= t)%nat -> (t < length bars)%nat ->
  (forall j, (t - 13 <= j)%nat -> (j <= t)%nat -> (0 < j)%nat ->
     close_at bars (j - 1)%nat <= close_at bars j) ->
  nth t (avg_loss bars) NaN = Fin 0 /\
  ((exists j, (t - 13 <= j)%nat /\ (j <= t)%nat /\ (0 < j)%nat /\
      close_at bars (j - 1)%nat < close_at bars j) ->
   nth t (rsi ind) NaN = Fin 100) /\
  ((forall j, (t - 13 <= j)%nat -> (j <= t)%nat -> (0 < j)%nat ->
      close_at bars j == close_at bars (j - 1)%nat) ->
   nth t (rsi ind) NaN = NaN).
Proof.
  intros Hc H13 Ht Hmono. apply compute_computed in Hc as [-> _].
  pose proof (avg_loss_zero bars t H13 Ht Hmono) as Hl.
  destruct (avg_gain_facts bars t H13 Ht) as [g [Hg [_ [Hpos Hzero]]]].
  change (rsi (indicators bars)) with (rsi_col bars).
  rewrite nth_rsi, Hl, Hg by exact Ht.
  split; [reflexivity|]. split.
  - intros Hex. rewrite xdiv_by_zero_pos by (apply Hpos; exact Hex).
    apply rsi_of_rs_pinf.
  - intros Hflat. rewrite Hzero; [reflexivity|].
    intros j Hj1 Hj2 Hj0. specialize (Hflat j Hj1 Hj2 Hj0). lra.
Qed.

Lemma rsi_nondecreasing_window_witness :
  nth 20 (avg_loss (ramp 200)) NaN = Fin 0 /\
  ((exists j, (20 - 13 <= j)%nat /\ (j <= 20)%nat /\ (0 < j)%nat /\
      close_at (ramp 200) (j - 1)%nat < close_at (ramp 200) j) ->
   nth 20 (rsi (indicators (ramp 200))) NaN = Fin 100) /\
  ((forall j, (20 - 13 <= j)%nat -> (j <= 20)%nat -> (0 < j)%nat ->
      close_at (ramp 200) j == close_at (ramp 200) (j - 1)%nat) ->
   nth 20 (rsi (indicators (ramp 200))) NaN = NaN).
Proof.
  apply (rsi_nondecreasing_window (ramp 200) (indicators (ramp 200)) 20).
  - reflexivity.
  - lia.
  - unfold ramp. rewrite length_map, length_seq. lia.
  - intros j Hj1 Hj2 Hj0. rewrite !close_at_ramp by lia.
    apply inject_nat_le. lia.
Defined.

Lemma length_low_14 bars : length (low_14 bars) = length bars.
Proof. unfold low_14, lows. now rewrite length_rolling, length_map. Qed.

Lemma length_high_14 bars : length (high_14 bars) = length bars.
Proof. unfold high_14, highs. now rewrite length_rolling, length_map. Qed.

Lemma length_stoch_k bars : length (stoch_k_col bars) = length bars.
Proof.
  unfold stoch_k_col. rewrite !length_zip_with, length_closes, length_low_14, length_high_14.
  lia.
Qed.

Lemma nth_stoch_k bars i :
  (i < length bars)%nat ->
  nth i (stoch_k_col bars) NaN =
  xdiv (xmul (Fin 100) (xsub (Fin (close_at bars i)) (nth i (low_14 bars) NaN)))
       (xsub (nth i (high_14 bars) NaN) (nth i (low_14 bars) NaN)).
Proof.
  intros Hi. unfold stoch_k_col.
  pose proof (length_closes bars). pose proof (length_low_14 bars).
  pose proof (length_high_14 bars).
  rewrite (nth_zip_with _ _ _ _ _ NaN NaN)
    by (rewrite ?length_zip_with; lia).
  rewrite (nth_zip_with _ _ _ _ _ NaN NaN) by lia.
  rewrite (nth_zip_with xsub _ _ _ _ NaN NaN) by lia.
  rewrite nth_closes by exact Hi. reflexivity.
Qed.

Lemma qsign_Qred_100 x :
  qsign (Qred (100 * x)) = qsign x.
Proof.
  unfold qsign. destruct (Qcompare x 0) eqn:E.
  - apply (proj1 (Qeq_alt _ _)). apply Qeq_alt in E. rewrite Qred_correct, E. reflexivity.
  - apply (proj1 (Qlt_alt _ _)). apply Qlt_alt in E. rewrite Qred_correct. lra.
  - apply (proj1 (Qgt_alt _ _)). apply Qgt_alt in E. rewrite Qred_correct. lra.
Qed.

(** C6, as stated, fails: when the 14-bar high equals the 14-bar low but
    the close lies above the bar's range, %K is +infinity (a positive
    number over 0), not an undefined value. *)
Lemma stoch_k_zero_range_counterexample :
  compute (flat_close_above 200) = Computed (indicators (flat_close_above 200)) /\
  nth 13 (high_14 (flat_close_above 200)) NaN = nth 13 (low_14 (flat_close_above 200)) NaN /\
  nth 13 (stoch_k (indicators (flat_close_above 200))) NaN = PInf.
Proof.
  split; [reflexivity|]. split; [vm_compute; reflexivity|].
  change (nth 13 (stoch_k_col (flat_close_above 200)) NaN = PInf).
  vm_compute. reflexivity.
Qed.

(** C6 (amended): %K at a bar [i >= 13] whose 14-bar high equals its
    14-bar low [m] is always computed (no failure) and is never a finite
    number: it is undefined (NaN, 0/0) when the close equals [m], +infinity
    when the close is above [m] and -infinity when it is below.  When the
    bar's close lies within its own low and high, the close equals [m], so
    %K is undefined. *)
Theorem stoch_k_zero_range bars ind i :
  compute bars = Computed ind ->
  (13 <= i)%nat -> (i < length bars)%nat ->
  nth i (high_14 bars) NaN = nth i (low_14 bars) NaN ->
  exists m, nth i (low_14 bars) NaN = Fin m /\
    (close_at bars i == m -> nth i (stoch_k ind) NaN = NaN) /\
    (m < close_at bars i -> nth i (stoch_k ind) NaN = PInf) /\
    (close_at bars i < m -> nth i (stoch_k ind) NaN = NInf) /\
    (low_at bars i <= close_at bars i <= high_at bars i -> close_at bars i == m).
Proof.
  intros Hc H13 Hi Hrange. apply compute_computed in Hc as [-> _].
  destruct (low_14_fin bars i H13 Hi) as [m [Hm Hlow]].
  destruct (high_14_fin bars i H13 Hi) as [M [HM Hhigh]].
  rewrite Hm, HM in Hrange. injection Hrange as ->.
  change (stoch_k (indicators bars)) with (stoch_k_col bars).
  rewrite nth_stoch_k, Hm, HM by exact Hi. rewrite !xsub_fin.
  assert (Hz : Qred (m - m) = 0) by (change 0 with (Qred 0); apply Qred_complete; ring).
  rewrite Hz. unfold xmul, xdiv. cbn [qsign Qcompare].
  unfold inf_scale. rewrite qsign_Qred_100. unfold qsign.
  exists m. split; [reflexivity|]. split; [|split; [|split]].
  - intros E. replace (Qcompare (Qred (close_at bars i - m)) 0) with Eq; [reflexivity|].
    symmetry. apply (proj1 (Qeq_alt _ _)). rewrite Qred_correct, E. ring.
  - intros E. replace (Qcompare (Qred (close_at bars i - m)) 0) with Gt; [reflexivity|].
    symmetry. apply (proj1 (Qgt_alt _ _)). rewrite Qred_correct. lra.
  - intros E. replace (Qcompare (Qred (close_at bars i - m)) 0) with Lt; [reflexivity|].
    symmetry. apply (proj1 (Qlt_alt _ _)). rewrite Qred_correct. lra.
  - intros [E1 E2]. specialize (Hlow i ltac:(lia) ltac:(lia)).
    specialize (Hhigh i ltac:(lia) ltac:(lia)).
    unfold low_at, high_at, close_at in *. lra.
Qed.

Lemma stoch_k_zero_range_witness :
  exists m, nth 20 (low_14 (flat 200)) NaN = Fin m /\
    (close_at (flat 200) 20 == m -> nth 20 (stoch_k (indicators (flat 200))) NaN = NaN) /\
    (m < close_at (flat 200) 20 -> nth 20 (stoch_k (indicators (flat 200))) NaN = PInf) /\
    (close_at (flat 200) 20 < m -> nth 20 (stoch_k (indicators (flat 200))) NaN = NInf) /\
    (low_at (flat 200) 20 <= close_at (flat 200) 20 <= high_at (flat 200) 20 ->
     close_at (flat 200) 20 == m).
Proof.
  apply (stoch_k_zero_range (flat 200) (indicators (flat 200)) 20).
  - reflexivity.
  - lia.
  - unfold flat. rewrite length_map, length_seq. lia.
  - vm_compute. reflexivity.
Defined.




(** ** Rounding to double precision *)













(** ** Warm-up lengths *)

Lemma leading_exact c k :
  (forall i, (i < k)%nat -> nth i c NaN = NaN) -> nth k c NaN <> NaN ->
  leading_undefined c = k.
Proof.
  revert c; induction k as [|k IH]; intros [|x r] Hpre Hk; simpl in *;
    try (exfalso; apply Hk; reflexivity).
  - destruct x; reflexivity || contradiction.
  - pose proof (Hpre 0%nat ltac:(lia)) as H0. simpl in H0. subst x.
    f_equal. apply IH; [|exact Hk].
    intros i Hi. exact (Hpre (S i) ltac:(lia)).
Qed.

Lemma leading_ge c k :
  (k <= length c)%nat -> (forall i, (i < k)%nat -> nth i c NaN = NaN) ->
  (k <= leading_undefined c)%nat.
Proof.
  revert c; induction k as [|k IH]; intros [|x r] Hlen Hpre; simpl in *; try lia.
  pose proof (Hpre 0%nat ltac:(lia)) as H0. simpl in H0. subst x.
  assert (k <= leading_undefined r)%nat; [|lia].
  apply IH; [lia|]. intros i Hi. exact (Hpre (S i) ltac:(lia)).
Qed.

Lemma leading_map_fin l : leading_undefined (map Fin l) = 0%nat.
Proof. destruct l; reflexivity. Qed.

Lemma leading_zip_fin (f : Q -> Q -> Q) l1 l2 :
  leading_undefined (zip_with (fun a b => Fin (f a b)) l1 l2) = 0%nat.
Proof. destruct l1, l2; reflexivity. Qed.

Lemma length_ewm_adjusted_go w num den xs :
  length (ewm_adjusted_go w num den xs) = length xs.
Proof. revert num den; induction xs; intros; simpl; auto. Qed.

Lemma length_ewm_unadjusted_go w prev xs :
  length (ewm_unadjusted_go w prev xs) = length xs.
Proof. revert prev; induction xs; intros; simpl; auto. Qed.

Lemma length_ewm_unadjusted span xs : length (ewm_unadjusted span xs) = length xs.
Proof. destruct xs; simpl; [reflexivity|]. now rewrite length_ewm_unadjusted_go. Qed.

Lemma length_macd_line_q bars : length (macd_line_q bars) = length bars.
Proof.
  unfold macd_line_q, ewm_adjusted. cbv zeta.
  rewrite length_zip_with, !length_ewm_adjusted_go, length_map. lia.
Qed.

Lemma length_true_range bars : length (true_range bars) = length bars.
Proof. unfold true_range. cbv zeta. col_len. Qed.

Lemma rolling_mean_closes_fin w bars i :
  (0 < w)%nat -> (w <= S i)%nat -> (i < length bars)%nat ->
  exists q, nth i (rolling w (xmean w) (closes bars)) NaN = Fin q.
Proof.
  intros Hw Hwi Hi.
  destruct (rolling_mean_fin w (closes bars) i (fun _ => True)) as [qs [s [_ [_ [_ H]]]]];
    try (rewrite ?length_closes; lia); eauto.
  intros j _ Hj. rewrite nth_closes by lia. eauto.
Qed.

Lemma bb_std_fin bars i :
  (19 <= i)%nat -> (i < length bars)%nat -> exists v, nth i (bb_std bars) NaN = Fin v.
Proof.
  intros H19 Hi. unfold bb_std.
  rewrite nth_rolling by (rewrite length_closes; exact Hi).
  replace (S i <? 20)%nat with false by (symmetry; apply Nat.ltb_ge; lia).
  unfold closes. rewrite <- (map_map b_close Fin), window_map.
  apply xstd_map_fin. lia.
Qed.

Lemma nth_bb_upper bars i :
  (i < length bars)%nat ->
  nth i (bb_upper_col bars) NaN =
  xadd (nth i (bb_middle_col bars) NaN) (xmul (Fin 2) (nth i (bb_std bars) NaN)).
Proof.
  intros Hi. unfold bb_upper_col.
  rewrite (nth_zip_with _ _ _ _ _ NaN NaN); [reflexivity| |];
    unfold bb_middle_col, bb_std; rewrite length_rolling, length_closes; exact Hi.
Qed.

Lemma nth_bb_lower bars i :
  (i < length bars)%nat ->
  nth i (bb_lower_col bars) NaN =
  xsub (nth i (bb_middle_col bars) NaN) (xmul (Fin 2) (nth i (bb_std bars) NaN)).
Proof.
  intros Hi. unfold bb_lower_col.
  rewrite (nth_zip_with _ _ _ _ _ NaN NaN); [reflexivity| |];
    unfold bb_middle_col, bb_std; rewrite length_rolling, length_closes; exact Hi.
Qed.

Lemma atr_fin bars i :
  (13 <= i)%nat -> (i < length bars)%nat -> exists q, nth i (atr_col bars) NaN = Fin q.
Proof.
  intros H13 Hi.
  destruct (rolling_mean_fin 14 (true_range bars) i (fun _ => True)) as [qs [s [_ [_ [_ H]]]]];
    try (rewrite ?length_true_range; lia); eauto.
  intros j _ Hj. destruct (true_range_fin bars j ltac:(lia)) as [q Hq]. eauto.
Qed.

(** the 14-bar average loss: non-negative, positive when a close in the
    window falls *)
Lemma avg_loss_facts bars t :
  (13 <= t)%nat -> (t < length bars)%nat ->
  exists l, nth t (avg_loss bars) NaN = Fin l /\ 0 <= l /\
    ((exists j, (t - 13 <= j)%nat /\ (j <= t)%nat /\ (0 < j)%nat /\
        close_at bars j < close_at bars (j - 1)%nat) -> 0 < l).
Proof.
  intros H13 Ht.
  destruct (rolling_mean_fin 14 (loss_col bars) t (Qle 0)) as [qs [s [Hqs [Hs [Hwin Hval]]]]];
    try lia; [rewrite length_loss; exact Ht| |].
  { intros j Hj1 Hj2. rewrite nth_loss by lia.
    destruct (j =? 0)%nat; [eexists; split; [reflexivity|lra]|].
    cbv zeta. destruct (Qlt_bool _ 0) eqn:E; (eexists; split; [reflexivity|]).
    - unfold Qlt_bool in E. apply negb_true_iff in E.
      assert (Hlt : ~ (0 <= Qred (b_close (nth j bars dummy_bar) - b_close (nth (j - 1) bars dummy_bar))))
        by (intros C; apply Qle_bool_iff in C; congruence).
      apply Qnot_le_lt in Hlt. rewrite !Qred_correct. rewrite Qred_correct in Hlt. lra.
    - lra. }
  exists (Qred (s / inject_nat 14)). split; [exact Hval|].
  pose proof (sum_nonneg qs Hqs) as Hsum.
  split; [apply Qred_div14_nonneg; lra|].
  intros [j [Hj1 [Hj2 [Hj0 Hlt]]]]. apply Qred_div14_pos.
  assert (Hin : In (nth j (loss_col bars) NaN) (map Fin qs)).
  { rewrite <- Hwin. apply nth_in_window; try lia. rewrite length_loss. lia. }
  rewrite nth_loss in Hin by lia.
  replace (j =? 0)%nat with false in Hin by (symmetry; apply Nat.eqb_neq; lia).
  unfold close_at in Hlt. cbv zeta in Hin.
  set (d := Qred (b_close (nth j bars dummy_bar) - b_close (nth (j - 1) bars dummy_bar))) in Hin.
  assert (Hd : d < 0) by (unfold d; rewrite Qred_correct; lra).
  replace (Qlt_bool d 0) with true in Hin.
  - apply in_map_iff in Hin as [q [Hq Hin]].
    assert (Hq' : Qred (- d) = q) by congruence.
    assert (Hqpos : 0 < q) by (rewrite <- Hq', Qred_correct; lra).
    pose proof (sum_pos qs q Hqs Hin Hqpos). lra.
  - unfold Qlt_bool. symmetry. apply negb_true_iff.
    destruct (Qle_bool 0 d) eqn:E; [|reflexivity].
    apply Qle_bool_iff in E. lra.
Qed.

Lemma rsi_early bars i : (i < 13)%nat -> nth i (rsi_col bars) NaN = NaN.
Proof.
  intros Hi. destruct (Nat.lt_ge_cases i (length bars)) as [Hn|Hn].
  - rewrite nth_rsi by exact Hn. unfold avg_gain.
    rewrite rolling_early by lia. reflexivity.
  - apply nth_overflow. unfold rsi_col. rewrite length_map, length_zip_with.
    unfold avg_gain, avg_loss. rewrite !length_rolling, length_gain, length_loss. lia.
Qed.

Lemma rsi_defined bars t :
  (13 <= t)%nat -> (t < length bars)%nat ->
  (exists j, (t - 13 <= j)%nat /\ (j <= t)%nat /\ (0 < j)%nat /\
     ~ close_at bars j == close_at bars (j - 1)%nat) ->
  nth t (rsi_col bars) NaN <> NaN.
Proof.
  intros H13 Ht [j [Hj1 [Hj2 [Hj0 Hne]]]] Hnan.
  destruct (avg_gain_facts bars t H13 Ht) as [g [Hg [_ [Hgpos _]]]].
  destruct (avg_loss_facts bars t H13 Ht) as [l [Hl [_ Hlpos]]].
  rewrite nth_rsi, Hg, Hl in Hnan by exact Ht.
  apply rsi_of_rs_nan, xdiv_fin_nan in Hnan as [Hg0 Hl0].
  destruct (Qlt_le_dec (close_at bars (j - 1)%nat) (close_at bars j)) as [Hup|Hdown].
  - assert (0 < g) by (apply Hgpos; exists j; auto). lra.
  - assert (Hdown' : close_at bars j < close_at bars (j - 1)%nat).
    { destruct (Qle_lt_or_eq _ _ Hdown) as [H|H]; [exact H|].
      exfalso. apply Hne. exact H. }
    assert (0 < l) by (apply Hlpos; exists j; auto). lra.
Qed.

Lemma stoch_k_early bars i : (i < 13)%nat -> nth i (stoch_k_col bars) NaN = NaN.
Proof.
  intros Hi. destruct (Nat.lt_ge_cases i (length bars)) as [Hn|Hn].
  - rewrite nth_stoch_k by exact Hn. unfold low_14.
    rewrite (rolling_early 14 xmin_all (lows bars) i) by lia. reflexivity.
  - apply nth_overflow. rewrite length_stoch_k. exact Hn.
Qed.

Lemma stoch_k_defined bars i :
  (13 <= i)%nat -> (i < length bars)%nat ->
  (exists j, (i - 13 <= j)%nat /\ (j <= i)%nat /\ low_at bars j < high_at bars j) ->
  exists q, nth i (stoch_k_col bars) NaN = Fin q.
Proof.
  intros H13 Hi [j [Hj1 [Hj2 Hj]]].
  rewrite nth_stoch_k by exact Hi.
  destruct (low_14_fin bars i H13 Hi) as [m [Hm Hlow]].
  destruct (high_14_fin bars i H13 Hi) as [M [HM Hhigh]].
  rewrite Hm, HM, !xsub_fin.
  specialize (Hlow j Hj1 Hj2). specialize (Hhigh j Hj1 Hj2).
  unfold low_at, high_at in Hj.
  assert (Hs : qsign (Qred (M - m)) = Gt).
  { unfold qsign. apply (proj1 (Qgt_alt _ _)). rewrite Qred_correct. lra. }
  unfold xmul, xdiv. rewrite Hs. eauto.
Qed.

Lemma stoch_d_early bars i :
  (i < 15)%nat -> nth i (stoch_d_col bars) NaN = NaN.
Proof.
  intros Hi. unfold stoch_d_col.
  destruct (Nat.lt_ge_cases i 2) as [H2|H2]; [apply rolling_early; lia|].
  destruct (Nat.lt_ge_cases i (length (stoch_k_col bars))) as [Hn|Hn].
  - rewrite nth_rolling by exact Hn.
    replace (S i <? 3)%nat with false by (symmetry; apply Nat.ltb_ge; lia).
    unfold xmean.
    replace (existsb is_nan (window 3 i (stoch_k_col bars))) with true; [reflexivity|].
    symmetry. apply existsb_exists. exists NaN. split; [|reflexivity].
    rewrite <- (stoch_k_early bars (i - 2)) by lia.
    apply nth_in_window; lia.
  - apply nth_overflow. rewrite length_rolling. exact Hn.
Qed.

Lemma stoch_d_defined bars i :
  (15 <= i)%nat -> (i < length bars)%nat ->
  (forall k, (i - 2 <= k)%nat -> (k <= i)%nat -> exists q, nth k (stoch_k_col bars) NaN = Fin q) ->
  nth i (stoch_d_col bars) NaN <> NaN.
Proof.
  intros H15 Hi Hk. unfold stoch_d_col.
  destruct (rolling_mean_fin 3 (stoch_k_col bars) i (fun _ => True)) as [qs [s [_ [_ [_ H]]]]];
    try (rewrite ?length_stoch_k; lia).
  - intros j Hj1 Hj2. destruct (Hk j ltac:(lia) Hj2) as [q Hq]. eauto.
  - rewrite H. discriminate.
Qed.

Ltac ind_len :=
  unfold macd_hist_col, rsi_col, bb_upper_col, bb_lower_col, stoch_d_col, atr_col;
  unfold ma_col, macd_line_col, macd_signal_col, avg_gain, avg_loss, bb_middle_col, bb_std;
  repeat rewrite ?length_map, ?length_zip_with, ?length_rolling, ?length_closes,
    ?length_macd_line_q, ?length_ewm_unadjusted, ?length_gain, ?length_loss,
    ?length_stoch_k, ?length_true_range, ?Nat.min_id;
  lia.

(** C1, as stated, fails: on a steadily rising series of 200 bars the
    rsi and the atr are already defined at bar 13, so they have 13 leading
    undefined entries, not 14.  The first price change gives gain and loss
    0 (not NaN) at bar 0, and the true range of bar 0 is its high - low
    (the row maximum skips the missing previous close). *)
Lemma warmup_counterexample :
  compute (ramp 200) = Computed (indicators (ramp 200)) /\
  leading_undefined (rsi (indicators (ramp 200))) = 13%nat /\
  leading_undefined (atr (indicators (ramp 200))) = 13%nat.
Proof.
  split; [reflexivity|]. split.
  - change (leading_undefined (rsi_col (ramp 200)) = 13%nat). vm_compute. reflexivity.
  - change (leading_undefined (atr_col (ramp 200)) = 13%nat). vm_compute. reflexivity.
Qed.

Lemma rsi_flat_start bars :
  (13 < length bars)%nat ->
  (forall j, (0 < j)%nat -> (j <= 13)%nat -> close_at bars j == close_at bars (j - 1)%nat) ->
  nth 13 (rsi_col bars) NaN = NaN.
Proof.
  intros Hn Hflat.
  destruct (avg_gain_facts bars 13) as [g [Hg [_ [_ Hg0]]]]; try lia.
  rewrite nth_rsi, Hg by lia.
  rewrite avg_loss_zero by (try lia; intros j _ Hj Hj0; rewrite (Hflat j Hj0 Hj); lra).
  rewrite Hg0 by (intros j _ Hj Hj0; rewrite (Hflat j Hj0 Hj); lra).
  reflexivity.
Qed.

Lemma stoch_k13_nan bars :
  (13 < length bars)%nat ->
  (nth 13 (stoch_k_col bars) NaN = NaN <->
   exists lo hi, nth 13 (low_14 bars) NaN = Fin lo /\ nth 13 (high_14 bars) NaN = Fin hi /\
                 hi == lo /\ close_at bars 13 == lo).
Proof.
  intros Hn.
  destruct (low_14_fin bars 13) as [lo [Hlo _]]; try lia.
  destruct (high_14_fin bars 13) as [hi [Hhi _]]; try lia.
  rewrite nth_stoch_k, Hlo, Hhi, !xsub_fin by lia. cbn [xmul].
  split.
  - intros H. apply xdiv_fin_nan in H as [H1 H2].
    rewrite !Qred_correct in H1. rewrite Qred_correct in H2.
    exists lo, hi. repeat split; try reflexivity; lra.
  - intros [lo' [hi' [E1 [E2 [Eh Ec]]]]].
    assert (lo' = lo) by congruence. assert (hi' = hi) by congruence. subst lo' hi'.
    assert (Z1 : Qred (100 * Qred (close_at bars 13 - lo)) = 0)
      by (apply (Qred_complete _ 0); rewrite Qred_correct, Ec; ring).
    assert (Z2 : Qred (hi - lo) = 0)
      by (apply (Qred_complete _ 0); rewrite Eh; ring).
    rewrite Z1, Z2. reflexivity.
Qed.

Lemma stoch_d_after_nan_k bars i :
  (13 < length bars)%nat -> nth 13 (stoch_k_col bars) NaN = NaN ->
  (i < 16)%nat -> nth i (stoch_d_col bars) NaN = NaN.
Proof.
  intros Hn Hk Hi.
  destruct (Nat.lt_ge_cases i 15) as [H15|H15]; [apply stoch_d_early; exact H15|].
  assert (i = 15%nat) by lia. subst i. unfold stoch_d_col.
  destruct (Nat.lt_ge_cases 15 (length (stoch_k_col bars))) as [Hl|Hl].
  - rewrite nth_rolling by exact Hl.
    replace (16 <? 3)%nat with false by reflexivity.
    unfold xmean.
    replace (existsb is_nan (window 3 15 (stoch_k_col bars))) with true; [reflexivity|].
    symmetry. apply existsb_exists. exists NaN. split; [|reflexivity].
    rewrite <- Hk. apply nth_in_window; lia.
  - apply nth_overflow. rewrite length_rolling. exact Hl.
Qed.

(** C1 (amended): for a series of at least 200 bars every column has the
    series' length; ma50 has exactly 49 leading undefined entries, ma200
    199, the three Bollinger columns 19, atr 13 and the MACD columns none;
    rsi and %K have at least 13 and %D at least 15.  rsi has exactly 13
    when a close among bars 1..13 differs from the one before it, and at
    least 14 when the closes of bars 0..13 are all equal.  %K has exactly
    13 unless, at bar 13, the 14-bar high equals the 14-bar low and the
    close equals that level (0/0); in that case %K has at least 14 and %D
    at least 16.  %K has exactly 13 in particular when one of bars 0..13
    has low < high, and %D has exactly 15 when one of bars 2..13 has
    low < high. *)
Theorem warmup_lengths bars ind :
  compute bars = Computed ind ->
  Forall (fun c => length c = length bars)
    [ma50 ind; ma200 ind; macd_line ind; macd_signal ind; macd_hist ind; rsi ind;
     bb_middle ind; bb_upper ind; bb_lower ind; stoch_k ind; stoch_d ind; atr ind] /\
  leading_undefined (ma50 ind) = 49%nat /\
  leading_undefined (ma200 ind) = 199%nat /\
  leading_undefined (macd_line ind) = 0%nat /\
  leading_undefined (macd_signal ind) = 0%nat /\
  leading_undefined (macd_hist ind) = 0%nat /\
  leading_undefined (bb_middle ind) = 19%nat /\
  leading_undefined (bb_upper ind) = 19%nat /\
  leading_undefined (bb_lower ind) = 19%nat /\
  leading_undefined (atr ind) = 13%nat /\
  (13 <= leading_undefined (rsi ind))%nat /\
  ((exists j, (0 < j)%nat /\ (j <= 13)%nat /\ ~ close_at bars j == close_at bars (j - 1)%nat) ->
   leading_undefined (rsi ind) = 13%nat) /\
  ((forall j, (0 < j)%nat -> (j <= 13)%nat -> close_at bars j == close_at bars (j - 1)%nat) ->
   (14 <= leading_undefined (rsi ind))%nat) /\
  (13 <= leading_undefined (stoch_k ind))%nat /\
  ((exists lo hi, nth 13 (low_14 bars) NaN = Fin lo /\ nth 13 (high_14 bars) NaN = Fin hi /\
                  hi == lo /\ close_at bars 13 == lo) ->
   (14 <= leading_undefined (stoch_k ind))%nat /\ (16 <= leading_undefined (stoch_d ind))%nat) /\
  (~ (exists lo hi, nth 13 (low_14 bars) NaN = Fin lo /\ nth 13 (high_14 bars) NaN = Fin hi /\
                    hi == lo /\ close_at bars 13 == lo) ->
   leading_undefined (stoch_k ind) = 13%nat) /\
  ((exists j, (j <= 13)%nat /\ low_at bars j < high_at bars j) ->
   leading_undefined (stoch_k ind) = 13%nat) /\
  (15 <= leading_undefined (stoch_d ind))%nat /\
  ((exists j, (2 <= j)%nat /\ (j <= 13)%nat /\ low_at bars j < high_at bars j) ->
   leading_undefined (stoch_d ind) = 15%nat).
Proof.
  intros Hc. apply compute_computed in Hc as [-> Hn]. unfold min_bars in Hn.
  cbn [ma50 ma200 macd_line macd_signal macd_hist rsi bb_middle bb_upper bb_lower
       stoch_k stoch_d atr indicators].
  split.
  { repeat apply Forall_cons; try apply Forall_nil; ind_len. }
  split.
  { apply leading_exact; [intros i Hi; apply rolling_early; lia|].
    destruct (rolling_mean_closes_fin 50 bars 49) as [q Hq]; try lia.
    unfold ma_col. rewrite Hq. discriminate. }
  split.
  { apply leading_exact; [intros i Hi; apply rolling_early; lia|].
    destruct (rolling_mean_closes_fin 200 bars 199) as [q Hq]; try lia.
    unfold ma_col. rewrite Hq. discriminate. }
  split; [apply leading_map_fin|]. split; [apply leading_map_fin|].
  split.
  { unfold macd_hist_col, macd_line_col, macd_signal_col.
    rewrite zip_with_xsub_fin. apply leading_zip_fin. }
  split.
  { apply leading_exact; [intros i Hi; apply rolling_early; lia|].
    destruct (rolling_mean_closes_fin 20 bars 19) as [q Hq]; try lia.
    unfold bb_middle_col. rewrite Hq. discriminate. }
  destruct (rolling_mean_closes_fin 20 bars 19) as [q19 Hq19]; try lia.
  destruct (bb_std_fin bars 19) as [v19 Hv19]; try lia.
  split.
  { apply leading_exact.
    - intros i Hi. rewrite nth_bb_upper by lia. unfold bb_middle_col.
      rewrite rolling_early by lia. reflexivity.
    - rewrite nth_bb_upper by lia. unfold bb_middle_col. rewrite Hq19, Hv19.
      unfold xadd, xmul. discriminate. }
  split.
  { apply leading_exact.
    - intros i Hi. rewrite nth_bb_lower by lia. unfold bb_middle_col.
      rewrite rolling_early by lia. reflexivity.
    - rewrite nth_bb_lower by lia. unfold bb_middle_col. rewrite Hq19, Hv19.
      unfold xsub, xadd, xneg, xmul. discriminate. }
  split.
  { apply leading_exact; [intros i Hi; apply rolling_early; lia|].
    destruct (atr_fin bars 13) as [q Hq]; try lia. rewrite Hq. discriminate. }
  split.
  { apply leading_ge; [ind_len|]. intros i Hi. apply rsi_early. exact Hi. }
  split.
  { intros [j [Hj0 [Hj13 Hne]]]. apply leading_exact.
    - intros i Hi. apply rsi_early. exact Hi.
    - apply rsi_defined; try lia. exists j. repeat split; try lia. exact Hne. }
  split.
  { intros Hflat. apply leading_ge; [ind_len|]. intros i Hi.
    destruct (Nat.lt_ge_cases i 13) as [H13|H13]; [apply rsi_early; exact H13|].
    replace i with 13%nat by lia. apply rsi_flat_start; [lia|exact Hflat]. }
  split.
  { apply leading_ge; [ind_len|]. intros i Hi. apply stoch_k_early. exact Hi. }
  split.
  { intros Hz. apply (proj2 (stoch_k13_nan bars ltac:(lia))) in Hz. split.
    - apply leading_ge; [ind_len|]. intros i Hi.
      destruct (Nat.lt_ge_cases i 13) as [H13|H13]; [apply stoch_k_early; exact H13|].
      replace i with 13%nat by lia. exact Hz.
    - apply leading_ge; [ind_len|]. intros i Hi.
      apply stoch_d_after_nan_k; [lia|exact Hz|exact Hi]. }
  split.
  { intros Hnz. apply leading_exact.
    - intros i Hi. apply stoch_k_early. exact Hi.
    - intros Hk. apply Hnz. apply (proj1 (stoch_k13_nan bars ltac:(lia))). exact Hk. }
  split.
  { intros [j [Hj13 Hj]]. apply leading_exact.
    - intros i Hi. apply stoch_k_early. exact Hi.
    - destruct (stoch_k_defined bars 13) as [q Hq]; try lia.
      + exists j. repeat split; try lia. exact Hj.
      + rewrite Hq. discriminate. }
  split.
  { apply leading_ge; [ind_len|]. intros i Hi. apply stoch_d_early. exact Hi. }
  intros [j [Hj2 [Hj13 Hj]]]. apply leading_exact.
  - intros i Hi. apply stoch_d_early. exact Hi.
  - apply stoch_d_defined; try lia. intros k Hk1 Hk2.
    apply stoch_k_defined; try lia. exists j. repeat split; try lia. exact Hj.
Qed.

Lemma warmup_lengths_witness :
  Forall (fun c => length c = length (ramp 200))
    [ma50 (indicators (ramp 200)); ma200 (indicators (ramp 200));
     macd_line (indicators (ramp 200)); macd_signal (indicators (ramp 200));
     macd_hist (indicators (ramp 200)); rsi (indicators (ramp 200));
     bb_middle (indicators (ramp 200)); bb_upper (indicators (ramp 200));
     bb_lower (indicators (ramp 200)); stoch_k (indicators (ramp 200));
     stoch_d (indicators (ramp 200)); atr (indicators (ramp 200))] /\
  leading_undefined (ma50 (indicators (ramp 200))) = 49%nat /\
  leading_undefined (ma200 (indicators (ramp 200))) = 199%nat /\
  leading_undefined (macd_line (indicators (ramp 200))) = 0%nat /\
  leading_undefined (macd_signal (indicators (ramp 200))) = 0%nat /\
  leading_undefined (macd_hist (indicators (ramp 200))) = 0%nat /\
  leading_undefined (bb_middle (indicators (ramp 200))) = 19%nat /\
  leading_undefined (bb_upper (indicators (ramp 200))) = 19%nat /\
  leading_undefined (bb_lower (indicators (ramp 200))) = 19%nat /\
  leading_undefined (atr (indicators (ramp 200))) = 13%nat /\
  (13 <= leading_undefined (rsi (indicators (ramp 200))))%nat /\
  ((exists j, (0 < j)%nat /\ (j <= 13)%nat /\
      ~ close_at (ramp 200) j == close_at (ramp 200) (j - 1)%nat) ->
   leading_undefined (rsi (indicators (ramp 200))) = 13%nat) /\
  ((forall j, (0 < j)%nat -> (j <= 13)%nat ->
      close_at (ramp 200) j == close_at (ramp 200) (j - 1)%nat) ->
   (14 <= leading_undefined (rsi (indicators (ramp 200))))%nat) /\
  (13 <= leading_undefined (stoch_k (indicators (ramp 200))))%nat /\
  ((exists lo hi, nth 13 (low_14 (ramp 200)) NaN = Fin lo /\
                  nth 13 (high_14 (ramp 200)) NaN = Fin hi /\
                  hi == lo /\ close_at (ramp 200) 13 == lo) ->
   (14 <= leading_undefined (stoch_k (indicators (ramp 200))))%nat /\
   (16 <= leading_undefined (stoch_d (indicators (ramp 200))))%nat) /\
  (~ (exists lo hi, nth 13 (low_14 (ramp 200)) NaN = Fin lo /\
                    nth 13 (high_14 (ramp 200)) NaN = Fin hi /\
                    hi == lo /\ close_at (ramp 200) 13 == lo) ->
   leading_undefined (stoch_k (indicators (ramp 200))) = 13%nat) /\
  ((exists j, (j <= 13)%nat /\ low_at (ramp 200) j < high_at (ramp 200) j) ->
   leading_undefined (stoch_k (indicators (ramp 200))) = 13%nat) /\
  (15 <= leading_undefined (stoch_d (indicators (ramp 200))))%nat /\
  ((exists j, (2 <= j)%nat /\ (j <= 13)%nat /\ low_at (ramp 200) j < high_at (ramp 200) j) ->
   leading_undefined (stoch_d (indicators (ramp 200))) = 15%nat).
Proof.
  apply (warmup_lengths (ramp 200) (indicators (ramp 200))). reflexivity.
Defined.

(** ** The script's effects and the Excel workbook *)

Lemma filter_writes_print l : filter writes_file (map Print l) = [].
Proof. induction l; simpl; auto. Qed.

Lemma uncaught_not_print l e : ~ In (Uncaught e) (map Print l).
Proof. intros H. apply in_map_iff in H as [m [Hm _]]. discriminate. Qed.

Lemma last_app_r {A} (l1 l2 : list A) d : l2 <> [] -> last (l1 ++ l2)%list d = last l2 d.
Proof.
  intros Hne. induction l1 as [|a l1 IH]; [reflexivity|].
  cbn [app]. rewrite <- IH. destruct (l1 ++ l2)%list eqn:E; [|reflexivity].
  apply app_eq_nil in E as [_ E]. contradiction.
Qed.

Lemma overlay_nonempty n rs wb : wb <> [] -> overlay n rs wb <> [].
Proof.
  destruct wb as [|[t o] wb]; [contradiction|]. intros _. cbn [overlay].
  destruct (String.eqb t n); discriminate.
Qed.

Lemma write_sheet_nonempty wb n rs :
  match write_sheet wb n rs with
  | inl wb' => wb' <> []
  | inr (_, wb') => wb' <> []
  end.
Proof.
  unfold write_sheet.
  destruct (existsb (String.eqb n) (map fst wb)) eqn:E.
  - apply overlay_nonempty. destruct wb; [discriminate|]. discriminate.
  - destruct (String.eqb n ""); cbn beta iota zeta;
      [intros H; apply app_eq_nil in H as [_ H]; discriminate|].
    destruct (find _ _); cbn beta iota zeta; intros H; apply app_eq_nil in H as [_ H];
      discriminate.
Qed.

Lemma write_sheets_nonempty wb calls : wb <> [] -> fst (write_sheets wb calls) <> [].
Proof.
  revert wb; induction calls as [|[n rs] calls IH]; intros wb Hwb; [exact Hwb|].
  cbn [write_sheets]. pose proof (write_sheet_nonempty wb n rs) as H.
  destruct (write_sheet wb n rs) as [wb'|[e wb']]; [apply IH|]; exact H.
Qed.

(** the workbook has a sheet as soon as one [to_excel] call was made *)
Lemma write_sheets_empty wb calls : fst (write_sheets wb calls) = [] -> calls = [].
Proof.
  destruct calls as [|[n rs] calls]; [reflexivity|]. intros H. exfalso.
  cbn [write_sheets] in H. pose proof (write_sheet_nonempty wb n rs) as Hn.
  destruct (write_sheet wb n rs) as [wb'|[e wb']].
  - exact (write_sheets_nonempty _ _ Hn H).
  - exact (Hn H).
Qed.

Lemma excel_block_uncaught xl d e :
  In (Uncaught e) (excel_block xl d) <->
  (xl = false /\ e = openpyxl_missing) \/
  (xl = true /\ excel_sheets d = [] /\ e = no_visible_sheet) \/
  (xl = true /\ excel_sheets d <> [] /\ snd (write_sheets [] (excel_sheets d)) = Some e).
Proof.
  unfold excel_block. destruct xl; cbn [negb].
  - pose proof (write_sheets_empty [] (excel_sheets d)) as Hemp.
    destruct (write_sheets [] (excel_sheets d)) as [wb err] eqn:Ew. cbn [fst snd] in *.
    destruct wb as [|w wb].
    + specialize (Hemp eq_refl). rewrite Hemp. cbn [In].
      split; [intros [H|[H|[]]]; [discriminate|injection H as <-]; auto|].
      intros [[H _]|[[_ [_ <-]]|[_ [H _]]]]; [discriminate|auto|contradiction].
    + assert (Hne : excel_sheets d <> []).
      { intros E. rewrite E in Ew. discriminate. }
      destruct err as [e'|]; cbn [In].
      * split.
        -- intros [H|[H|[H|[]]]]; try discriminate. injection H as <-. auto.
        -- intros [[H _]|[[_ [H _]]|[_ [_ H]]]]; [discriminate|contradiction|].
           injection H as <-. auto.
      * split.
        -- intros [H|[H|[H|[]]]]; discriminate.
        -- intros [[H _]|[[_ [H _]]|[_ [_ H]]]]; [discriminate|contradiction|discriminate].
  - split; [intros [H|[]]; injection H as <-; auto|].
    intros [[_ <-]|[[H _]|[H _]]]; [left; reflexivity|discriminate|discriminate].
Qed.

Lemma excel_block_no_processed xl d n : ~ In (Print (MsgProcessed n)) (excel_block xl d).
Proof.
  unfold excel_block. destruct xl; cbn [negb]; [|intros [H|[]]; discriminate].
  destruct (write_sheets [] (excel_sheets d)) as [[|w wb] [e|]]; cbn [In];
    intuition discriminate.
Qed.

Lemma main_uncaught_table t ts fetch xl e :
  In (Uncaught e) (main (WikiTable (t :: ts)) fetch xl) <->
  In (Uncaught e) (excel_block xl (snd (fetch_stock_data fetch (t :: ts)))).
Proof.
  unfold main. cbn [get_sp500_tickers_wikipedia].
  destruct (fetch_stock_data fetch (t :: ts)) as [log d]. cbn [snd].
  pose proof (uncaught_not_print log e) as Hlog.
  pose proof (uncaught_not_print [MsgText "Fetching S&P 500 tickers from Wikipedia..."] e) as Hw.
  cbn [map] in Hw. rewrite !in_app_iff. cbn [In]. intuition discriminate.
Qed.

(** X1: when Wikipedia gives a non-empty list but openpyxl is not
    installed, the script writes sp500_tickers.csv and no other file:
    [pd.ExcelWriter] raises ModuleNotFoundError before it opens
    sp500_analysis.xlsx, and that exception ends the script. *)
Theorem main_without_openpyxl r fetch ts :
  r = WikiTable ts -> ts <> [] ->
  filter writes_file (main r fetch false) = [WriteCsv "sp500_tickers.csv" ts] /\
  last (main r fetch false) (Print (MsgText "")) = Uncaught openpyxl_missing.
Proof.
  intros -> Hne. destruct ts as [|t ts]; [contradiction|].
  unfold main. cbn [get_sp500_tickers_wikipedia].
  destruct (fetch_stock_data fetch (t :: ts)) as [log d]. split.
  - rewrite !filter_app, !filter_writes_print. reflexivity.
  - repeat rewrite last_app_r
      by (intros H; repeat (apply app_eq_nil in H as [_ H]); discriminate).
    reflexivity.
Qed.

Lemma main_without_openpyxl_witness :
  WikiTable ["NEW"] = WikiTable ["NEW"] /\ ["NEW"] <> [] /\
  (filter writes_file (main (WikiTable ["NEW"]) fetch_short false) =
     [WriteCsv "sp500_tickers.csv" ["NEW"]] /\
   last (main (WikiTable ["NEW"]) fetch_short false) (Print (MsgText "")) =
     Uncaught openpyxl_missing).
Proof.
  split; [reflexivity|]. split; [discriminate|].
  apply (main_without_openpyxl (WikiTable ["NEW"]) fetch_short ["NEW"]);
    [reflexivity|discriminate].
Defined.

(** X2: an exception escapes the script exactly in these cases: reading
    the ticker table raises something other than ImportError,
    RequestException or ValueError; or, for a non-empty ticker list,
    openpyxl is missing (ModuleNotFoundError), or no [to_excel] call was
    made so the workbook has no sheet and saving it raises IndexError, or a
    [to_excel] call raised. *)
Theorem main_uncaught r fetch has_openpyxl e :
  In (Uncaught e) (main r fetch has_openpyxl) <->
  r = WikiRaises OtherErr e \/
  (exists ts, r = WikiTable ts /\ ts <> [] /\
     ((has_openpyxl = false /\ e = openpyxl_missing) \/
      (has_openpyxl = true /\ excel_sheets (snd (fetch_stock_data fetch ts)) = [] /\
       e = no_visible_sheet) \/
      (has_openpyxl = true /\ excel_sheets (snd (fetch_stock_data fetch ts)) <> [] /\
       snd (write_sheets [] (excel_sheets (snd (fetch_stock_data fetch ts)))) = Some e))).
Proof.
  destruct r as [[|t ts]|[] e'].
  - cbn. split; [intuition discriminate|].
    intros [H|[ts [H [Hn _]]]]; [discriminate|]. injection H as <-. contradiction.
  - rewrite main_uncaught_table, excel_block_uncaught. split.
    + intros H. right. exists (t :: ts). split; [reflexivity|]. split; [discriminate|exact H].
    + intros [H|[ts' [H [_ H']]]]; [discriminate|]. injection H as <-. exact H'.
  - cbn. split; [intuition discriminate|]. intros [H|[ts [H _]]]; discriminate.
  - cbn. split; [intuition discriminate|]. intros [H|[ts [H _]]]; discriminate.
  - cbn. split; [intuition discriminate|]. intros [H|[ts [H _]]]; discriminate.
  - cbn. split.
    + intros [H|[H|[]]]; [discriminate|]. injection H as <-. left. reflexivity.
    + intros [H|[ts [H _]]]; [injection H as <-; right; left; reflexivity|discriminate].
Qed.

Lemma length_substring0 n s : (String.length (substring 0 n s) <= n)%nat.
Proof.
  revert n; induction s as [|c s IH]; intros [|n]; simpl; try lia.
  specialize (IH n). lia.
Qed.

Lemma substring0_short n s : (String.length s <= n)%nat -> substring 0 n s = s.
Proof.
  revert n; induction s as [|c s IH]; intros [|n] H; simpl in *; try lia; auto.
  f_equal. apply IH. lia.
Qed.

(** X3: every sheet name the script passes to [to_excel] has at most 31
    characters; a ticker's sheet name is the ticker itself when the ticker
    has at most 31 characters. *)
Theorem excel_sheet_names_short d :
  Forall (fun s => (String.length (fst s) <= 31)%nat) (excel_sheets d) /\
  (forall t, (String.length t <= 31)%nat -> sheet_name t = t).
Proof.
  split; [|intros t Ht; apply substring0_short; exact Ht].
  unfold excel_sheets. apply Forall_app. split.
  - destruct (summary_rows d); repeat constructor; simpl; lia.
  - apply Forall_forall. intros s Hs. apply in_flat_map in Hs as [[k w] [_ Hs]].
    simpl in Hs. destruct (w_rows w); [contradiction|].
    destruct Hs as [<-|[]]. apply length_substring0.
Qed.

Lemma summary_rows_last d :
  Forall2 (fun r kv => exists pre, w_rows (snd kv) = (pre ++ [r])%list) (summary_rows d)
    (filter (fun kv => match w_rows (snd kv) with [] => false | _ => true end) d).
Proof.
  induction d as [|[k w] d IH]; [constructor|].
  unfold summary_rows in *. cbn [flat_map filter snd].
  destruct (w_rows w) as [|r0 rs0] eqn:Ew; [simpl; exact IH|].
  destruct (rev (r0 :: rs0)) as [|r rs] eqn:E.
  - apply (f_equal (@rev Row)) in E. rewrite rev_involutive in E. discriminate.
  - simpl app. constructor; [|exact IH]. exists (rev rs). simpl snd. rewrite Ew.
    rewrite <- (rev_involutive (r0 :: rs0)), E. reflexivity.
Qed.

Lemma excel_sheets_shape d :
  Forall (fun kv => w_rows (snd kv) <> []) d -> d <> [] ->
  exists srows,
    excel_sheets d =
      ("Summary", srows) :: map (fun kv => (sheet_name (fst kv), w_rows (snd kv))) d /\
    Forall2 (fun r kv => exists pre, w_rows (snd kv) = (pre ++ [r])%list) srows d.
Proof.
  intros Hne Hd.
  assert (Hf : filter (fun kv => match w_rows (snd kv) with [] => false | _ => true end) d = d).
  { clear Hd. induction Hne as [|[k w] d Hw _ IH]; [reflexivity|]. simpl in *.
    destruct (w_rows w); [contradiction|]. f_equal. exact IH. }
  assert (Hm : flat_map (fun kv => match w_rows (snd kv) with
                                   | [] => []
                                   | rs => [(sheet_name (fst kv), rs)]
                                   end) d =
               map (fun kv => (sheet_name (fst kv), w_rows (snd kv))) d).
  { clear Hf Hd. induction Hne as [|[k w] d Hw _ IH]; [reflexivity|]. simpl in *.
    destruct (w_rows w); [contradiction|]. simpl. f_equal. exact IH. }
  pose proof (summary_rows_last d) as Hs. rewrite Hf in Hs.
  exists (summary_rows d). split; [|exact Hs].
  unfold excel_sheets. rewrite Hm.
  destruct (summary_rows d) eqn:E; [|reflexivity].
  inversion Hs; subst. contradiction.
Qed.

Lemma existsb_false_find {A} (f : A -> bool) l : existsb f l = false -> find f l = None.
Proof.
  induction l as [|a l IH]; [reflexivity|]. cbn [existsb find].
  destruct (f a); [discriminate|]. exact IH.
Qed.

Lemma avoid_duplicate_name_fresh names v :
  ~ In (str_lower v) (map str_lower names) -> avoid_duplicate_name names v = v.
Proof.
  intros Hn. unfold avoid_duplicate_name.
  replace (existsb _ names) with false; [reflexivity|].
  symmetry. apply not_true_iff_false. intros H.
  apply existsb_exists in H as [n [Hin E]]. apply String.eqb_eq in E.
  apply Hn. rewrite <- E. apply in_map. exact Hin.
Qed.

Lemma str_lower_in n l : In n l -> In (str_lower n) (map str_lower l).
Proof. apply in_map. Qed.

(** a call whose name is a valid title, new up to case and not "sheet"
    up to case, appends a sheet with that exact title *)
Lemma write_sheet_fresh wb n rs :
  valid_title n = true ->
  ~ In (str_lower n) (map str_lower (map fst wb)) ->
  ~ In "sheet" (map str_lower (map fst wb)) ->
  str_lower n <> "sheet" ->
  write_sheet wb n rs = inl (wb ++ [(n, rs)])%list.
Proof.
  intros Hv Hn Hs Hns. unfold write_sheet.
  replace (existsb (String.eqb n) (map fst wb)) with false.
  2:{ symmetry. apply not_true_iff_false. intros H.
      apply existsb_exists in H as [m [Hin E]]. apply String.eqb_eq in E. subst m.
      apply Hn. apply str_lower_in. exact Hin. }
  rewrite (avoid_duplicate_name_fresh (map fst wb) "Sheet") by exact Hs.
  unfold valid_title in Hv. apply andb_true_iff in Hv as [Hv1 Hv2].
  apply negb_true_iff in Hv1, Hv2. rewrite Hv1, existsb_false_find by exact Hv2.
  destruct (String.eqb_spec "Sheet" n) as [<-|Hne]; [reflexivity|].
  rewrite avoid_duplicate_name_fresh; [reflexivity|].
  rewrite map_app, map_app, in_app_iff. intros [H|[H|[]]]; [contradiction|].
  apply Hns. rewrite <- H. reflexivity.
Qed.

Lemma write_sheets_fresh wb calls :
  NoDup (map str_lower (map fst (wb ++ calls))) ->
  ~ In "sheet" (map str_lower (map fst (wb ++ calls))) ->
  Forall (fun c => valid_title (fst c) = true) calls ->
  write_sheets wb calls = ((wb ++ calls)%list, None).
Proof.
  revert wb. induction calls as [|[n rs] calls IH]; intros wb Hnd Hs Hv.
  - rewrite app_nil_r. reflexivity.
  - inversion Hv as [|? ? Hv1 Hv2]; subst. cbn [fst] in Hv1.
    rewrite !map_app in Hnd, Hs. cbn [map fst] in Hnd, Hs.
    cbn [write_sheets]. rewrite write_sheet_fresh.
    + rewrite IH; [rewrite <- app_assoc; reflexivity| | |exact Hv2];
        rewrite <- app_assoc; cbn [app]; rewrite !map_app; cbn [map fst]; assumption.
    + exact Hv1.
    + intros H. apply (NoDup_remove_2 _ _ _ Hnd). apply in_app_iff. left. exact H.
    + intros H. apply Hs. apply in_app_iff. left. exact H.
    + intros H. apply Hs. apply in_app_iff. right. left. exact H.
Qed.

(** X4: for a non-empty batch result whose windows all have rows and whose
    symbols are valid sheet titles of at most 31 characters, distinct even
    ignoring case and different from "Summary" and "Sheet" ignoring case,
    the script saves sp500_analysis.xlsx and prints its success line.  The
    workbook's first sheet is "Summary", with the last row of each
    ticker's window in dict order, followed by one sheet per ticker, titled
    by the ticker, in dict order, holding that ticker's window. *)
Theorem excel_workbook_layout d :
  Forall (fun kv => w_rows (snd kv) <> []) d -> d <> [] ->
  Forall (fun kv => valid_title (fst kv) = true /\ (String.length (fst kv) <= 31)%nat /\
                    ~ In (str_lower (fst kv)) ["summary"; "sheet"]) d ->
  NoDup (map (fun kv => str_lower (fst kv)) d) ->
  exists srows,
    excel_block true d =
      [CreateFile "sp500_analysis.xlsx";
       WriteExcel "sp500_analysis.xlsx"
         (("Summary", srows) :: map (fun kv => (fst kv, w_rows (snd kv))) d);
       Print (MsgText "Data saved to sp500_analysis.xlsx with multiple sheets")] /\
    Forall2 (fun r kv => exists pre, w_rows (snd kv) = (pre ++ [r])%list) srows d.
Proof.
  intros Hne Hd Hv Hnd.
  destruct (excel_sheets_shape d Hne Hd) as [srows [Hx Hs]].
  exists srows. split; [|exact Hs].
  assert (Hmap : map (fun kv => (sheet_name (fst kv), w_rows (snd kv))) d =
                 map (fun kv => (fst kv, w_rows (snd kv))) d).
  { apply map_ext_in. intros [k w] Hin. rewrite Forall_forall in Hv.
    destruct (Hv _ Hin) as [_ [Hl _]]. cbn [fst snd] in *.
    unfold sheet_name. rewrite substring0_short by exact Hl. reflexivity. }
  rewrite Hmap in Hx.
  assert (Hkeys : map str_lower (map fst (map (fun kv => (fst kv, w_rows (snd kv))) d)) =
                  map (fun kv => str_lower (fst kv)) d).
  { rewrite !map_map. reflexivity. }
  unfold excel_block. cbn [negb]. rewrite Hx.
  rewrite write_sheets_fresh; [reflexivity| | |].
  - cbn [app map fst]. rewrite Hkeys. constructor; [|exact Hnd].
    intros H. apply in_map_iff in H as [kv [Hk Hin]]. rewrite Forall_forall in Hv.
    destruct (Hv _ Hin) as [_ [_ Hn]]. apply Hn. rewrite Hk. left. reflexivity.
  - cbn [app map fst]. rewrite Hkeys. intros [H|H]; [discriminate|].
    apply in_map_iff in H as [kv [Hk Hin]]. rewrite Forall_forall in Hv.
    destruct (Hv _ Hin) as [_ [_ Hn]]. apply Hn. rewrite Hk. right. left. reflexivity.
  - constructor; [reflexivity|]. apply Forall_forall. intros c Hc.
    apply in_map_iff in Hc as [kv [<- Hin]]. rewrite Forall_forall in Hv.
    destruct (Hv _ Hin) as [H _]. exact H.
Qed.

Definition three_windows : BatchResult :=
  [("A", mkWindow None [row_at (ramp 1) (indicators (ramp 1)) "A" [] 0]);
   ("B", mkWindow None [row_at (ramp 1) (indicators (ramp 1)) "B" [] 0]);
   ("C", mkWindow None [row_at (ramp 1) (indicators (ramp 1)) "C" [] 0])].

Lemma excel_workbook_layout_witness :
  Forall (fun kv => w_rows (snd kv) <> []) three_windows /\ three_windows <> [] /\
  Forall (fun kv => valid_title (fst kv) = true /\ (String.length (fst kv) <= 31)%nat /\
                    ~ In (str_lower (fst kv)) ["summary"; "sheet"]) three_windows /\
  NoDup (map (fun kv => str_lower (fst kv)) three_windows) /\
  exists srows,
    excel_block true three_windows =
      [CreateFile "sp500_analysis.xlsx";
       WriteExcel "sp500_analysis.xlsx"
         (("Summary", srows) :: map (fun kv => (fst kv, w_rows (snd kv))) three_windows);
       Print (MsgText "Data saved to sp500_analysis.xlsx with multiple sheets")] /\
    Forall2 (fun r kv => exists pre, w_rows (snd kv) = (pre ++ [r])%list) srows three_windows.
Proof.
  assert (H1 : Forall (fun kv : string * ReportWindow => w_rows (snd kv) <> []) three_windows)
    by (repeat constructor; discriminate).
  assert (H2 : three_windows <> []) by discriminate.
  assert (H3 : Forall (fun kv : string * ReportWindow =>
                 valid_title (fst kv) = true /\ (String.length (fst kv) <= 31)%nat /\
                 ~ In (str_lower (fst kv)) ["summary"; "sheet"]) three_windows)
    by (repeat constructor; cbn; try lia; intuition discriminate).
  assert (H4 : NoDup (map (fun kv : string * ReportWindow => str_lower (fst kv)) three_windows))
    by (cbn; repeat constructor; cbn; intuition discriminate).
  split; [exact H1|]. split; [exact H2|]. split; [exact H3|]. split; [exact H4|].
  exact (excel_workbook_layout three_windows H1 H2 H3 H4).
Defined.

(** X18: a [to_excel] call raises only for a sheet name that is not a
    valid title (empty, or containing one of \ * ? : / [ ]), and the
    exception is a ValueError; when every name is a valid title no call
    raises. *)
Theorem sheet_title_errors wb calls :
  (forall e, snd (write_sheets wb calls) = Some e ->
     exists n rs, In (n, rs) calls /\ valid_title n = false /\
                  String.prefix "ValueError: " e = true) /\
  (Forall (fun c => valid_title (fst c) = true) calls -> snd (write_sheets wb calls) = None).
Proof.
  revert wb. induction calls as [|[n rs] calls IH]; intros wb.
  - split; [intros e H; discriminate|reflexivity].
  - cbn [write_sheets]. unfold write_sheet at 1 2.
    destruct (existsb (String.eqb n) (map fst wb)).
    { split; [intros e H; destruct (proj1 (IH _) e H) as [n' [rs' [Hin Hn]]];
              exists n', rs'; split; [right; exact Hin|exact Hn]|].
      intros Hv. inversion Hv; subst. apply (proj2 (IH _)). assumption. }
    destruct (String.eqb n "") eqn:E.
    { apply String.eqb_eq in E. subst n. split.
      - intros e H. cbn in H. injection H as <-. exists "", rs. split; [left; reflexivity|].
        split; reflexivity.
      - intros Hv. inversion Hv as [|? ? Hv1 _]. discriminate. }
    destruct (find invalid_title_char (list_ascii_of_string n)) as [c|] eqn:F.
    { split.
      - intros e H. cbn [snd] in H. injection H as <-. exists n, rs.
        split; [left; reflexivity|]. split; [|reflexivity].
        unfold valid_title. rewrite E. cbn [negb andb]. apply negb_false_iff.
        apply find_some in F as [Hin Hc]. apply existsb_exists. exists c. auto.
      - intros Hv. inversion Hv as [|? ? Hv1 _]. cbn [fst] in Hv1.
        unfold valid_title in Hv1. rewrite E in Hv1. cbn [negb andb] in Hv1.
        apply negb_true_iff in Hv1. rewrite existsb_false_find in F by exact Hv1.
        discriminate. }
    split.
    + intros e H. destruct (proj1 (IH _) e H) as [n' [rs' [Hin Hn]]].
      exists n', rs'. split; [right; exact Hin|exact Hn].
    + intros Hv. inversion Hv; subst. apply (proj2 (IH _)). assumption.
Qed.

(** ** The batch result as a dict *)

Lemma keys_dict_set {V} k (v : V) d :
  map fst (dict_set k v d) =
  if existsb (String.eqb k) (map fst d) then map fst d else (map fst d ++ [k])%list.
Proof.
  induction d as [|[k' v'] d IH]; [reflexivity|]. cbn [dict_set map fst existsb].
  destruct (String.eqb_spec k k') as [->|Hne]; [reflexivity|].
  cbn [map fst orb]. rewrite IH. destruct (existsb _ _); reflexivity.
Qed.

Lemma existsb_eqb_in k l : existsb (String.eqb k) l = true <-> In k l.
Proof.
  rewrite existsb_exists. split.
  - intros [x [Hx E]]. apply String.eqb_eq in E. subst. exact Hx.
  - intros H. exists k. split; [exact H|apply String.eqb_refl].
Qed.

Lemma nodup_dict_set {V} k (v : V) d :
  NoDup (map fst d) -> NoDup (map fst (dict_set k v d)).
Proof.
  intros H. rewrite keys_dict_set. destruct (existsb (String.eqb k) (map fst d)) eqn:E;
    [exact H|].
  apply NoDup_app; [exact H| |].
  - constructor; [intros []|constructor].
  - intros x Hx [Hkx|[]]. subst x.
    assert (existsb (String.eqb k) (map fst d) = true)
      by (apply existsb_eqb_in; exact Hx). congruence.
Qed.

Lemma nodup_fold_record fetch l d :
  NoDup (map fst d) -> NoDup (map fst (fold_left (record_ticker fetch) l d)).
Proof.
  revert d; induction l as [|t r IH]; intros d H; simpl; [exact H|].
  apply IH. unfold record_ticker. destruct (process_ticker fetch t); auto.
  apply nodup_dict_set. exact H.
Qed.

Lemma in_dict_get {V} (d : Dict V) k v :
  NoDup (map fst d) -> In (k, v) d <-> dict_get k d = Some v.
Proof.
  induction d as [|[k' v'] d IH]; intros H; simpl; [split; [intros []|discriminate]|].
  inversion H as [|? ? Hk Hd]; subst.
  destruct (String.eqb_spec k k') as [->|Hne]; split.
  - intros [E|Hin]; [injection E as ->; reflexivity|].
    exfalso. apply Hk. apply (in_map fst) in Hin. exact Hin.
  - intros E. injection E as ->. left. reflexivity.
  - intros [E|Hin]; [injection E as E _; congruence|]. apply IH; assumption.
  - intros E. right. apply IH; assumption.
Qed.

(** X5: the batch result never holds a ticker twice, even when the
    input lists it more than once, and it holds the pair (k, w) exactly
    when k is one of the input tickers and processing k records the
    window w. *)
Theorem batch_result_entries fetch tickers :
  NoDup (map fst (snd (fetch_stock_data fetch tickers))) /\
  (forall k w, In (k, w) (snd (fetch_stock_data fetch tickers)) <->
               In k tickers /\ process_ticker fetch k = Recorded w).
Proof.
  assert (Hnd : NoDup (map fst (snd (fetch_stock_data fetch tickers)))).
  { unfold fetch_stock_data. rewrite batch_result_flat by lia.
    apply nodup_fold_record. constructor. }
  split; [exact Hnd|]. intros k w.
  rewrite (in_dict_get _ _ _ Hnd), batch_result_get.
  destruct (existsb (String.eqb k) tickers) eqn:E.
  - apply existsb_eqb_in in E.
    destruct (process_ticker fetch k); simpl; split; try (intros [_ ?]; discriminate);
      try discriminate.
    + intros H. injection H as ->. auto.
    + intros [_ H]. injection H as ->. reflexivity.
  - split; [discriminate|]. intros [Hin _].
    apply existsb_eqb_in in Hin. congruence.
Qed.

(** ** The printed log of the batch loop *)

Lemma fst_fold_step fetch l acc :
  fst (fold_left (step fetch) l acc) =
  (fst acc ++ flat_map (fun t => match process_ticker fetch t with
                                 | Recorded _ => []
                                 | Skipped => [MsgNotEnough t]
                                 | Failed e => [MsgError t e]
                                 end) l)%list.
Proof.
  revert acc; induction l as [|t r IH]; intros [log d]; simpl; [now rewrite app_nil_r|].
  rewrite IH. unfold step. destruct (process_ticker fetch t); simpl;
    rewrite <- ?app_assoc; reflexivity.
Qed.

Lemma batch_log bs fetch l :
  fst (fetch_stock_data_bs bs fetch l) =
  flat_map (fun i =>
    MsgBatch (i / bs + 1) ((length l - 1) / bs + 1) (length (firstn bs (skipn i l))) ::
    flat_map (fun t => match process_ticker fetch t with
                       | Recorded _ => []
                       | Skipped => [MsgNotEnough t]
                       | Failed e => [MsgError t e]
                       end) (firstn bs (skipn i l)))
    (py_range 0 (length l) bs).
Proof.
  unfold fetch_stock_data_bs.
  assert (G : forall rng (acc : list Msg * BatchResult),
    fst (fold_left
      (fun acc i =>
         let batch_tickers := firstn bs (skipn i l) in
         fold_left (step fetch) batch_tickers
           ((fst acc ++ [MsgBatch (i / bs + 1) ((length l - 1) / bs + 1)
                          (length batch_tickers)])%list, snd acc)) rng acc) =
    (fst acc ++ flat_map (fun i =>
      MsgBatch (i / bs + 1) ((length l - 1) / bs + 1) (length (firstn bs (skipn i l))) ::
      flat_map (fun t => match process_ticker fetch t with
                         | Recorded _ => []
                         | Skipped => [MsgNotEnough t]
                         | Failed e => [MsgError t e]
                         end) (firstn bs (skipn i l))) rng)%list).
  { induction rng as [|i r IH]; intros acc; simpl; [now rewrite app_nil_r|].
    rewrite IH, fst_fold_step. simpl. rewrite <- !app_assoc. reflexivity. }
  apply (G _ ([], [])).
Qed.

Lemma flat_map_concat {A B} (f : A -> list B) ls :
  flat_map f (concat ls) = flat_map (flat_map f) ls.
Proof.
  induction ls as [|l ls IH]; simpl; [reflexivity|].
  rewrite flat_map_app, IH. reflexivity.
Qed.

Lemma filter_ticker_lines fetch l :
  filter (fun m => match m with MsgBatch _ _ _ => false | _ => true end)
    (flat_map (fun t => match process_ticker fetch t with
                        | Recorded _ => []
                        | Skipped => [MsgNotEnough t]
                        | Failed e => [MsgError t e]
                        end) l) =
  flat_map (fun t => match process_ticker fetch t with
                     | Recorded _ => []
                     | Skipped => [MsgNotEnough t]
                     | Failed e => [MsgError t e]
                     end) l.
Proof.
  induction l as [|t r IH]; simpl; [reflexivity|].
  rewrite filter_app, IH. destruct (process_ticker fetch t); reflexivity.
Qed.

(** X6: apart from the batch headers, the batch loop prints exactly one
    line per input ticker that is not stored, in input order: "Not enough
    data" for a history under 200 bars, "Error processing" with the
    exception message for a failure; a stored ticker prints nothing. *)
Theorem batch_log_per_ticker fetch tickers :
  filter (fun m => match m with MsgBatch _ _ _ => false | _ => true end)
    (fst (fetch_stock_data fetch tickers)) =
  flat_map (fun t => match process_ticker fetch t with
                     | Recorded _ => []
                     | Skipped => [MsgNotEnough t]
                     | Failed e => [MsgError t e]
                     end) tickers.
Proof.
  unfold fetch_stock_data. rewrite batch_log.
  rewrite <- (concat_batches 50 tickers) at 2 by lia.
  rewrite flat_map_concat.
  induction (py_range 0 (length tickers) 50) as [|i r IH]; [reflexivity|].
  cbn [flat_map map app filter].
  rewrite filter_app, IH, filter_ticker_lines. reflexivity.
Qed.

Lemma py_range_go_spec bs fuel start stop :
  (0 < bs)%nat -> (stop <= start + fuel)%nat ->
  py_range_go fuel start stop bs =
  map (fun k => start + k * bs)%nat (seq 0 ((stop - start + bs - 1) / bs)).
Proof.
  intros Hbs. revert start; induction fuel as [|f IH]; intros start Hle; simpl.
  - rewrite (Nat.div_small (stop - start + bs - 1) bs) by lia. reflexivity.
  - destruct (Nat.ltb_spec start stop) as [Hlt|Hge].
    + rewrite IH by lia.
      replace ((stop - start + bs - 1) / bs)%nat
        with (S ((stop - start - 1) / bs)).
      2:{ replace (stop - start + bs - 1)%nat with (stop - start - 1 + 1 * bs)%nat by lia.
          rewrite Nat.div_add by lia. lia. }
      replace ((stop - (start + bs) + bs - 1) / bs)%nat with ((stop - start - 1) / bs)%nat.
      2:{ destruct (Nat.le_gt_cases (stop - start) bs) as [Hs|Hs].
          - rewrite !Nat.div_small by lia. reflexivity.
          - f_equal. lia. }
      cbn [seq map]. f_equal; [lia|].
      rewrite <- seq_shift, map_map. apply map_ext. intros k. lia.
    + rewrite (Nat.div_small (stop - start + bs - 1) bs) by lia. reflexivity.
Qed.

(** X7: for a non-empty ticker list the batch headers number the batches
    1, 2, ..., N, where N = (len - 1) // 50 + 1 is the total every header
    prints, and header k reports the size of batch k: 50, except for the
    last batch, which holds the remaining tickers. *)
Theorem batch_headers fetch tickers :
  tickers <> [] ->
  filter (fun m => match m with MsgBatch _ _ _ => true | _ => false end)
    (fst (fetch_stock_data fetch tickers)) =
  map (fun k => MsgBatch (S k) ((length tickers - 1) / 50 + 1)
                         (Nat.min 50 (length tickers - k * 50)))
      (seq 0 ((length tickers - 1) / 50 + 1)).
Proof.
  intros Hne. assert (Hlen : (0 < length tickers)%nat)
    by (destruct tickers; [contradiction|simpl; lia]).
  unfold fetch_stock_data. rewrite batch_log. unfold py_range.
  rewrite py_range_go_spec by lia.
  replace (length tickers - 0 + 50 - 1)%nat with (length tickers - 1 + 1 * 50)%nat by lia.
  rewrite Nat.div_add by lia. rewrite Nat.add_1_r.
  induction (seq 0 (S ((length tickers - 1) / 50))) as [|k r IH]; [reflexivity|].
  cbn [flat_map map app filter]. rewrite filter_app, IH.
  replace (filter _ (flat_map _ _)) with (@nil Msg).
  - cbn [app]. rewrite Nat.add_0_l, Nat.div_mul by lia.
    rewrite length_firstn, length_skipn. f_equal. f_equal. lia.
  - match goal with |- _ = filter _ (flat_map _ ?l) => induction l as [|t u IHu] end;
      [reflexivity|].
    cbn [flat_map]. rewrite filter_app, <- IHu.
    destruct (process_ticker fetch t); reflexivity.
Qed.

Lemma batch_headers_witness :
  filter (fun m => match m with MsgBatch _ _ _ => true | _ => false end)
    (fst (fetch_stock_data fetch_short ["NEW"])) =
  map (fun k => MsgBatch (S k) ((length ["NEW"] - 1) / 50 + 1)
                         (Nat.min 50 (length ["NEW"] - k * 50)))
      (seq 0 ((length ["NEW"] - 1) / 50 + 1)).
Proof.
  apply batch_headers. discriminate.
Defined.

Lemma skipn_seq' k s n : skipn k (seq s n) = seq (s + k) (n - k).
Proof.
  revert s n; induction k as [|k IH]; intros s n.
  - rewrite Nat.add_0_r, Nat.sub_0_r. reflexivity.
  - destruct n as [|n]; [reflexivity|]. cbn [seq skipn].
    rewrite IH. f_equal; lia.
Qed.

(** X8: the window recorded for a ticker is timezone-naive whatever the
    history's timezone, and its rows are, in order, the rows built at the
    last five bar indices n-5, ..., n-1 from the indicators of the whole
    history; every row carries the ticker symbol and the info's sector
    and industry (None when the key is missing). *)
Theorem report_window_rows fetch t info h w :
  fetch t = Fetched info h ->
  process_ticker fetch t = Recorded w ->
  w_tz w = None /\
  w_rows w = map (row_at (h_bars h) (indicators (h_bars h)) t info)
                 (seq (length (h_bars h) - 5) 5) /\
  Forall (fun r => r_ticker r = t /\ r_sector r = info_get info "sector" /\
                   r_industry r = info_get info "industry") (w_rows w).
Proof.
  intros Hf Hp. unfold process_ticker in Hp. rewrite Hf in Hp.
  destruct (compute (h_bars h)) as [|ind] eqn:Hc; [discriminate|].
  injection Hp as <-. apply compute_computed in Hc as [-> Hlen].
  unfold min_bars in Hlen.
  assert (Hrows : w_rows (recent_window h (indicators (h_bars h)) t info) =
    map (row_at (h_bars h) (indicators (h_bars h)) t info)
        (seq (length (h_bars h) - 5) 5)).
  { assert (E : w_rows (recent_window h (indicators (h_bars h)) t info) =
      tail_n 5 (map (row_at (h_bars h) (indicators (h_bars h)) t info)
                    (seq 0 (length (h_bars h))))).
    { unfold recent_window. destruct (h_tz h); reflexivity. }
    rewrite E. unfold tail_n. rewrite length_map, length_seq, skipn_map, skipn_seq'.
    f_equal. f_equal. lia. }
  split; [unfold recent_window; destruct (h_tz h); reflexivity|].
  rewrite Hrows. split; [reflexivity|].
  apply Forall_forall. intros r Hr. apply in_map_iff in Hr as [i [<- _]].
  simpl. auto.
Qed.

Lemma report_window_rows_witness :
  let w := recent_window (mkHistory (Some "America/New_York"%string) (ramp 250))
             (indicators (ramp 250)) "A" [("sector"%string, "Technology"%string)] in
  w_tz w = None /\
  w_rows w = map (row_at (ramp 250) (indicators (ramp 250)) "A"
                   [("sector"%string, "Technology"%string)])
                 (seq (length (ramp 250) - 5) 5) /\
  Forall (fun r => r_ticker r = "A" /\
                   r_sector r = info_get [("sector"%string, "Technology"%string)] "sector" /\
                   r_industry r = info_get [("sector"%string, "Technology"%string)] "industry")
         (w_rows w).
Proof.
  apply (report_window_rows fetch_abc "A" [("sector"%string, "Technology"%string)]
           (mkHistory (Some "America/New_York"%string) (ramp 250))).
  - reflexivity.
  - reflexivity.
Defined.

Lemma rolling_mean_closes_value w bars i :
  (0 < w)%nat -> (w <= S i)%nat -> (i < length bars)%nat ->
  exists q, nth i (rolling w (xmean w) (closes bars)) NaN = Fin q /\
            q == fold_right Qplus 0 (map b_close (window w i bars)) / inject_nat w.
Proof.
  intros Hw Hwi Hi.
  rewrite nth_rolling by (rewrite length_closes; exact Hi).
  replace (S i <? w)%nat with false by (symmetry; apply Nat.ltb_ge; lia).
  unfold closes. rewrite <- (map_map b_close Fin), !window_map.
  destruct (xmean_map_fin w (map b_close (window w i bars)) Hw) as [s [Hs ->]].
  eexists; split; [reflexivity|]. rewrite Qred_correct, Hs. reflexivity.
Qed.

(** X9: once its window is full, each moving average of lines 41, 42 and
    61 is a finite number equal to the arithmetic mean of the closes of the
    trailing window: 50 bars for MA50 (from index 49), 200 bars for MA200
    (from index 199) and 20 bars for the Bollinger middle band (from
    index 19). *)
Theorem moving_averages_are_means bars ind i :
  compute bars = Computed ind -> (i < length bars)%nat ->
  ((49 <= i)%nat -> exists q, nth i (ma50 ind) NaN = Fin q /\
     q == fold_right Qplus 0 (map b_close (window 50 i bars)) / inject_nat 50) /\
  ((199 <= i)%nat -> exists q, nth i (ma200 ind) NaN = Fin q /\
     q == fold_right Qplus 0 (map b_close (window 200 i bars)) / inject_nat 200) /\
  ((19 <= i)%nat -> exists q, nth i (bb_middle ind) NaN = Fin q /\
     q == fold_right Qplus 0 (map b_close (window 20 i bars)) / inject_nat 20).
Proof.
  intros Hc Hi. apply compute_computed in Hc as [-> _]. cbn [ma50 ma200 bb_middle indicators].
  unfold ma_col, bb_middle_col.
  split; [|split]; intros H; apply rolling_mean_closes_value; lia.
Qed.

Lemma moving_averages_are_means_witness :
  ((49 <= 199)%nat -> exists q, nth 199 (ma50 (indicators (ramp 200))) NaN = Fin q /\
     q == fold_right Qplus 0 (map b_close (window 50 199 (ramp 200))) / inject_nat 50) /\
  ((199 <= 199)%nat -> exists q, nth 199 (ma200 (indicators (ramp 200))) NaN = Fin q /\
     q == fold_right Qplus 0 (map b_close (window 200 199 (ramp 200))) / inject_nat 200) /\
  ((19 <= 199)%nat -> exists q, nth 199 (bb_middle (indicators (ramp 200))) NaN = Fin q /\
     q == fold_right Qplus 0 (map b_close (window 20 199 (ramp 200))) / inject_nat 20).
Proof.
  apply (moving_averages_are_means (ramp 200) (indicators (ramp 200)) 199).
  - reflexivity.
  - vm_compute. reflexivity.
Defined.

Lemma sqrt_q_nonneg a : 0 <= sqrt_q a.
Proof.
  unfold sqrt_q. destruct (Qle_bool a 0); [lra|].
  rewrite Qred_correct.
  pose proof (Z.sqrt_nonneg (Qnum a * Z.pos (Qden a) * 2 ^ 104)).
  unfold Qle; cbn [Qnum Qden]. lia.
Qed.

Lemma xstd_map_nonneg w qs :
  (1 < w)%nat -> exists v, xstd w (map Fin qs) = Fin v /\ 0 <= v.
Proof.
  intros Hw. unfold xstd.
  destruct (xmean_map_fin w qs) as [s [_ ->]]; [lia|].
  set (m := Qred (s / inject_nat w)).
  rewrite map_map.
  rewrite (map_ext _ (fun q => Fin (Qred (Qred (q - m) * Qred (q - m)))))
    by (intros q; now rewrite xsub_fin).
  rewrite <- (map_map (fun q => Qred (Qred (q - m) * Qred (q - m))) Fin).
  unfold xsum. destruct (fold_xadd_fin (map (fun q => Qred (Qred (q - m) * Qred (q - m))) qs) 0)
    as [t [-> _]].
  unfold xdiv. rewrite qsign_inject_nat_pos by lia.
  eexists; split; [reflexivity|apply sqrt_q_nonneg].
Qed.

(** X10: from index 19 on, the Bollinger columns of lines 61-64 are
    finite: with m the middle band and s the 20-bar standard deviation,
    s is nonnegative, the upper band is m + 2s and the lower band is
    m - 2s, so lower <= middle <= upper. *)
Theorem bollinger_bands bars ind i :
  compute bars = Computed ind -> (19 <= i)%nat -> (i < length bars)%nat ->
  exists m s u l,
    nth i (bb_middle ind) NaN = Fin m /\ nth i (bb_std bars) NaN = Fin s /\
    nth i (bb_upper ind) NaN = Fin u /\ nth i (bb_lower ind) NaN = Fin l /\
    0 <= s /\ u == m + 2 * s /\ l == m - 2 * s /\ l <= m /\ m <= u.
Proof.
  intros Hc H19 Hi. apply compute_computed in Hc as [-> _].
  cbn [bb_middle bb_upper bb_lower indicators].
  destruct (rolling_mean_closes_fin 20 bars i) as [m Hm]; try lia.
  assert (Hs : exists s, nth i (bb_std bars) NaN = Fin s /\ 0 <= s).
  { unfold bb_std. rewrite nth_rolling by (rewrite length_closes; exact Hi).
    replace (S i <? 20)%nat with false by (symmetry; apply Nat.ltb_ge; lia).
    unfold closes. rewrite <- (map_map b_close Fin), window_map.
    apply xstd_map_nonneg. lia. }
  destruct Hs as [s [Hs Hs0]].
  rewrite nth_bb_upper, nth_bb_lower by exact Hi.
  unfold bb_middle_col in *. rewrite Hm, Hs.
  cbn [xmul]. rewrite xsub_fin. cbn [xadd].
  exists m, s, (Qred (m + Qred (2 * s))), (Qred (m - Qred (2 * s))).
  repeat split; try reflexivity; try exact Hs0; rewrite ?Qred_correct; lra.
Qed.

Lemma bollinger_bands_witness :
  exists m s u l,
    nth 199 (bb_middle (indicators (ramp 200))) NaN = Fin m /\
    nth 199 (bb_std (ramp 200)) NaN = Fin s /\
    nth 199 (bb_upper (indicators (ramp 200))) NaN = Fin u /\
    nth 199 (bb_lower (indicators (ramp 200))) NaN = Fin l /\
    0 <= s /\ u == m + 2 * s /\ l == m - 2 * s /\ l <= m /\ m <= u.
Proof.
  apply (bollinger_bands (ramp 200) (indicators (ramp 200)) 199).
  - reflexivity.
  - lia.
  - vm_compute. reflexivity.
Defined.

Lemma rsi_of_rs_range r :
  0 <= r -> exists q, rsi_of_rs (Fin r) = Fin q /\ 0 <= q <= 100.
Proof.
  intros Hr. unfold rsi_of_rs. cbn [xadd].
  assert (Hd : 1 <= Qred (1 + r)) by (rewrite Qred_correct; lra).
  unfold xdiv at 1.
  replace (qsign (Qred (1 + r))) with Gt
    by (symmetry; unfold qsign; apply (proj1 (Qgt_alt _ _)); lra).
  rewrite xsub_fin. eexists; split; [reflexivity|].
  set (d := Qred (1 + r)) in *.
  assert (H1 : 0 <= 100 / d) by (apply Qle_shift_div_l; lra).
  assert (H2 : 100 / d <= 100) by (apply Qle_shift_div_r; lra).
  rewrite !Qred_correct. lra.
Qed.

(** X11: every entry of the RSI column of lines 52-58 is either NaN or a
    finite number between 0 and 100 (100 when the window has gains and
    no losses, NaN when it has neither). *)
Theorem rsi_range bars ind :
  compute bars = Computed ind ->
  Forall (fun x => x = NaN \/ exists q, x = Fin q /\ 0 <= q <= 100) (rsi ind).
Proof.
  intros Hc. apply compute_computed in Hc as [-> _]. cbn [rsi indicators].
  apply Forall_forall. intros x Hx.
  apply (In_nth _ _ NaN) in Hx as [t [Ht <-]].
  assert (Htn : (t < length bars)%nat).
  { unfold rsi_col, avg_gain, avg_loss in Ht.
    rewrite length_map, length_zip_with, !length_rolling, length_gain, length_loss in Ht. lia. }
  destruct (Nat.lt_ge_cases t 13) as [Hlt|Hge]; [left; apply rsi_early; exact Hlt|].
  destruct (avg_gain_facts bars t Hge Htn) as [g [Hg [Hg0 _]]].
  destruct (avg_loss_facts bars t Hge Htn) as [l [Hl [Hl0 _]]].
  rewrite nth_rsi, Hg, Hl by exact Htn.
  unfold xdiv. destruct (qsign l) eqn:El.
  - unfold inf_scale. destruct (qsign g) eqn:Eg.
    + left. reflexivity.
    + unfold qsign in Eg. apply (proj2 (Qlt_alt _ _)) in Eg. lra.
    + right. exists 100. split; [reflexivity|lra].
  - unfold qsign in El. apply (proj2 (Qlt_alt _ _)) in El. lra.
  - unfold qsign in El. apply (proj2 (Qgt_alt _ _)) in El.
    right. apply rsi_of_rs_range.
    rewrite Qred_correct. apply Qle_shift_div_l; lra.
Qed.

Lemma rsi_range_witness :
  Forall (fun x => x = NaN \/ exists q, x = Fin q /\ 0 <= q <= 100)
         (rsi (indicators (ramp 200))).
Proof.
  apply (rsi_range (ramp 200)). reflexivity.
Defined.

Lemma xmax2_fin a b : xmax2 (Fin a) (Fin b) = Fin (if Qle_bool b a then a else b).
Proof. unfold xmax2, xlt, Qlt_bool. destruct (Qle_bool b a); reflexivity. Qed.

Lemma Qle_bool_false a b : Qle_bool a b = false -> b < a.
Proof.
  intros E. apply Qnot_le_lt. intros C. apply Qle_bool_iff in C. congruence.
Qed.

Lemma true_range_spec bars j :
  (j < length bars)%nat ->
  exists q, nth j (true_range bars) NaN = Fin q /\
    let b := nth j bars dummy_bar in
    (j = 0%nat -> q == b_high b - b_low b) /\
    ((0 < j)%nat ->
       let c := b_close (nth (j - 1) bars dummy_bar) in
       b_high b - b_low b <= q /\ Qabs (b_high b - c) <= q /\ Qabs (b_low b - c) <= q /\
       (q == b_high b - b_low b \/ q == Qabs (b_high b - c) \/ q == Qabs (b_low b - c))).
Proof.
  intros Hj. unfold true_range. cbv zeta.
  rewrite (nth_zip_with _ _ _ _ _ NaN (NaN, NaN)) by col_len.
  rewrite (nth_zip_with _ _ _ _ _ NaN NaN) by col_len.
  rewrite (nth_zip_with pair _ _ _ _ NaN NaN) by col_len.
  rewrite !(nth_map_lt xabs _ _ _ NaN) by col_len.
  rewrite !(nth_zip_with xsub _ _ _ _ NaN NaN) by col_len.
  unfold highs, lows.
  rewrite !(nth_map_lt _ bars j NaN dummy_bar) by exact Hj.
  rewrite nth_shift_closes by exact Hj. cbn [fst snd].
  rewrite xsub_fin.
  set (h := b_high (nth j bars dummy_bar)). set (l := b_low (nth j bars dummy_bar)).
  destruct (j =? 0)%nat eqn:Ej.
  - apply Nat.eqb_eq in Ej.
    cbn [xsub xneg xadd xabs xmax_skipna filter is_nan negb xmax_all existsb orb fold_left].
    eexists; split; [reflexivity|]. split.
    + intros _. apply Qred_correct.
    + intros H. lia.
  - apply Nat.eqb_neq in Ej.
    set (c := b_close (nth (j - 1) bars dummy_bar)).
    rewrite !xsub_fin.
    cbn [xabs xmax_skipna filter is_nan negb xmax_all existsb orb fold_left].
    rewrite !xmax2_fin.
    assert (Hhl : Qred (h - l) == h - l) by apply Qred_correct.
    assert (Hhc : Qred (Qabs (Qred (h - c))) == Qabs (h - c))
      by (rewrite !Qred_correct; reflexivity).
    assert (Hlc : Qred (Qabs (Qred (l - c))) == Qabs (l - c))
      by (rewrite !Qred_correct; reflexivity).
    set (x := Qred (h - l)) in *. set (y := Qred (Qabs (Qred (h - c)))) in *.
    set (z := Qred (Qabs (Qred (l - c)))) in *.
    eexists; split; [reflexivity|]. split; [intros; lia|]. intros _.
    destruct (Qle_bool y x) eqn:E1;
      [apply Qle_bool_iff in E1|apply Qle_bool_false in E1];
    match goal with |- context [Qle_bool z ?m] =>
      destruct (Qle_bool z m) eqn:E2;
      [apply Qle_bool_iff in E2|apply Qle_bool_false in E2] end;
    (split; [|split; [|split]]); try lra.
Qed.

(** X12: the true range of lines 73-76 is finite at every bar.  On the
    first bar, where the previous close is missing, it is high - low (the
    NaN terms are skipped); on every later bar it is the largest of
    high - low, |high - previous close| and |low - previous close|. *)
Theorem true_range_value bars j :
  (j < length bars)%nat ->
  exists q, nth j (true_range bars) NaN = Fin q /\
    let b := nth j bars dummy_bar in
    (j = 0%nat -> q == b_high b - b_low b) /\
    ((0 < j)%nat ->
       let c := b_close (nth (j - 1) bars dummy_bar) in
       b_high b - b_low b <= q /\ Qabs (b_high b - c) <= q /\ Qabs (b_low b - c) <= q /\
       (q == b_high b - b_low b \/ q == Qabs (b_high b - c) \/ q == Qabs (b_low b - c))).
Proof.
  intros Hj. exact (true_range_spec bars j Hj).
Qed.

Lemma true_range_value_witness :
  exists q, nth 1 (true_range (ramp 200)) NaN = Fin q /\
    let b := nth 1 (ramp 200) dummy_bar in
    (1%nat = 0%nat -> q == b_high b - b_low b) /\
    ((0 < 1)%nat ->
       let c := b_close (nth (1 - 1) (ramp 200) dummy_bar) in
       b_high b - b_low b <= q /\ Qabs (b_high b - c) <= q /\ Qabs (b_low b - c) <= q /\
       (q == b_high b - b_low b \/ q == Qabs (b_high b - c) \/ q == Qabs (b_low b - c))).
Proof.
  apply (true_range_value (ramp 200) 1). vm_compute. lia.
Defined.

(** X13: provided the first bar's low is not above its high, every entry
    of the ATR column of line 77 is NaN or a nonnegative number (later
    bars need no such condition: their true range is at least an absolute
    value). *)
Theorem atr_nonneg bars ind :
  compute bars = Computed ind ->
  b_low (nth 0 bars dummy_bar) <= b_high (nth 0 bars dummy_bar) ->
  Forall (fun x => x = NaN \/ exists q, x = Fin q /\ 0 <= q) (atr ind).
Proof.
  intros Hc H0. apply compute_computed in Hc as [-> _]. cbn [atr indicators].
  apply Forall_forall. intros x Hx.
  apply (In_nth _ _ NaN) in Hx as [t [Ht <-]].
  unfold atr_col in *. rewrite length_rolling, length_true_range in Ht.
  destruct (Nat.lt_ge_cases t 13) as [Hlt|Hge]; [left; apply rolling_early; lia|].
  right.
  destruct (rolling_mean_fin 14 (true_range bars) t (Qle 0)) as [qs [s [Hqs [Hs [_ Hval]]]]];
    try lia; [rewrite length_true_range; exact Ht| |].
  - intros j _ Hj.
    destruct (true_range_spec bars j ltac:(lia)) as [q [Hq [Hz Hpos]]].
    exists q. split; [exact Hq|].
    destruct (Nat.eq_dec j 0) as [->|Hj0].
    + rewrite (Hz eq_refl). lra.
    + destruct (Hpos ltac:(lia)) as [_ [Habs _]].
      pose proof (Qabs_nonneg (b_high (nth j bars dummy_bar) -
                               b_close (nth (j - 1) bars dummy_bar))). lra.
  - rewrite Hval. eexists; split; [reflexivity|].
    apply Qred_div14_nonneg. rewrite Hs. apply sum_nonneg. exact Hqs.
Qed.

Lemma atr_nonneg_witness :
  Forall (fun x => x = NaN \/ exists q, x = Fin q /\ 0 <= q) (atr (indicators (ramp 200))).
Proof.
  apply (atr_nonneg (ramp 200)).
  - reflexivity.
  - vm_compute. discriminate.
Defined.

Lemma ewm_decay_nonneg span : (1 <= span)%nat -> 0 <= ewm_decay span.
Proof.
  intros Hs. unfold ewm_decay. rewrite Qred_correct.
  assert (H1 : inject_nat 1 <= inject_nat span) by (apply inject_nat_le; exact Hs).
  change (inject_nat 1) with 1 in H1.
  assert (H2 : 2 / (inject_nat span + 1) <= 1) by (apply Qle_shift_div_r; lra).
  lra.
Qed.

Lemma ewm_adjusted_go_const w c num den xs :
  0 <= w -> 0 <= den -> num == c * den -> Forall (fun x => x == c) xs ->
  Forall (fun y => y == c) (ewm_adjusted_go w num den xs).
Proof.
  intros Hw. revert num den; induction xs as [|x r IH]; intros num den Hd Hn Hxs;
    [constructor|].
  inversion Hxs as [|? ? Hx Hr]; subst. cbn [ewm_adjusted_go].
  assert (Hwd : 0 <= w * den) by (apply Qmult_le_0_compat; assumption).
  assert (Hd' : 1 <= Qred (1 + w * den)) by (rewrite Qred_correct; lra).
  assert (Hn' : Qred (x + w * num) == c * Qred (1 + w * den))
    by (rewrite !Qred_correct, Hx, Hn; ring).
  constructor.
  - rewrite Qred_correct, Hn'. apply Qdiv_mult_l. intros E. rewrite E in Hd'. lra.
  - apply IH; [lra|exact Hn'|exact Hr].
Qed.

Lemma ewm_adjusted_const span c xs :
  (1 <= span)%nat -> Forall (fun x => x == c) xs ->
  Forall (fun y => y == c) (ewm_adjusted span xs).
Proof.
  intros Hs Hxs. apply ewm_adjusted_go_const; try assumption.
  - apply ewm_decay_nonneg. exact Hs.
  - lra.
  - ring.
Qed.

Lemma zip_sub_const c l1 l2 :
  Forall (fun y => y == c) l1 -> Forall (fun y => y == c) l2 ->
  zip_with (fun a b => Qred (a - b)) l1 l2 = repeat 0 (Nat.min (length l1) (length l2)).
Proof.
  intros H1. revert l2; induction H1 as [|a r1 Ha H1 IH]; intros [|b r2] H2;
    try reflexivity.
  inversion H2 as [|? ? Hb H2']; subst. cbn [zip_with length repeat Nat.min].
  rewrite IH by exact H2'. f_equal.
  apply (Qred_complete _ 0). rewrite Ha, Hb. ring.
Qed.

Lemma ewm_unadjusted_go_zero w n :
  ewm_unadjusted_go w 0 (repeat 0 n) = repeat 0 n.
Proof.
  induction n as [|n IH]; [reflexivity|]. cbn [repeat ewm_unadjusted_go].
  assert (E : Qred (w * 0 + (1 - w) * 0) = 0)
    by (apply (Qred_complete _ 0); ring).
  rewrite E, IH. reflexivity.
Qed.

(** X14: when every close of the history equals the same price c, the
    MACD line, its signal and the histogram of lines 45-49 are exactly 0
    at every bar. *)
Theorem macd_constant_closes bars ind c :
  compute bars = Computed ind ->
  Forall (fun b => b_close b == c) bars ->
  macd_line ind = repeat (Fin 0) (length bars) /\
  macd_signal ind = repeat (Fin 0) (length bars) /\
  macd_hist ind = repeat (Fin 0) (length bars).
Proof.
  intros Hc Hb. apply compute_computed in Hc as [-> _].
  cbn [macd_line macd_signal macd_hist indicators].
  assert (Hcl : Forall (fun x => x == c) (map b_close bars))
    by (apply Forall_map; exact Hb).
  assert (Hq : macd_line_q bars = repeat 0 (length bars)).
  { unfold macd_line_q. cbv zeta.
    rewrite (zip_sub_const c) by (apply ewm_adjusted_const; [lia|exact Hcl]).
    unfold ewm_adjusted. rewrite !length_ewm_adjusted_go, length_map, Nat.min_id.
    reflexivity. }
  assert (Hl : macd_line_col bars = repeat (Fin 0) (length bars))
    by (unfold macd_line_col; rewrite Hq, map_repeat; reflexivity).
  assert (Hs : macd_signal_col bars = repeat (Fin 0) (length bars)).
  { unfold macd_signal_col. rewrite Hq.
    destruct (length bars) as [|n]; [reflexivity|].
    cbn [repeat ewm_unadjusted]. rewrite ewm_unadjusted_go_zero. cbn [map].
    rewrite map_repeat. reflexivity. }
  split; [exact Hl|]. split; [exact Hs|].
  unfold macd_hist_col. rewrite Hl, Hs. clear.
  induction (length bars) as [|n IH]; [reflexivity|].
  cbn [repeat zip_with]. rewrite IH. reflexivity.
Qed.

Lemma macd_constant_closes_witness :
  macd_line (indicators (flat 200)) = repeat (Fin 0) (length (flat 200)) /\
  macd_signal (indicators (flat 200)) = repeat (Fin 0) (length (flat 200)) /\
  macd_hist (indicators (flat 200)) = repeat (Fin 0) (length (flat 200)).
Proof.
  apply (macd_constant_closes (flat 200) (indicators (flat 200)) 10).
  - reflexivity.
  - unfold flat. apply Forall_map, Forall_forall. intros i _. reflexivity.
Defined.

Lemma dict_set_new {V} k (v : V) d :
  ~ In k (map fst d) -> dict_set k v d = (d ++ [(k, v)])%list.
Proof.
  induction d as [|[k' v'] d IH]; intros Hk; [reflexivity|].
  cbn [dict_set app]. destruct (String.eqb_spec k k') as [->|Hne].
  - exfalso. apply Hk. left. reflexivity.
  - rewrite IH; [reflexivity|]. intros H. apply Hk. right. exact H.
Qed.

Lemma fold_record_fresh fetch l d :
  NoDup l -> (forall k, In k l -> ~ In k (map fst d)) ->
  fold_left (record_ticker fetch) l d =
  (d ++ flat_map (fun t => match process_ticker fetch t with
                           | Recorded w => [(t, w)]
                           | _ => []
                           end) l)%list.
Proof.
  intros Hl. revert d; induction Hl as [|t r Ht Hr IH]; intros d Hd;
    [symmetry; apply app_nil_r|].
  cbn [fold_left flat_map]. unfold record_ticker at 2.
  destruct (process_ticker fetch t) as [w| |e] eqn:E.
  - rewrite dict_set_new by (apply Hd; left; reflexivity).
    rewrite IH, <- app_assoc; [reflexivity|].
    intros k Hk Hin. rewrite map_app in Hin. apply in_app_iff in Hin as [Hin|[Hkt|[]]].
    + apply (Hd k); [right; exact Hk|exact Hin].
    + cbn in Hkt. subst k. contradiction.
  - rewrite IH; [reflexivity|]. intros k Hk. apply Hd. right. exact Hk.
  - rewrite IH; [reflexivity|]. intros k Hk. apply Hd. right. exact Hk.
Qed.

Lemma fetch_result_in_order fetch tickers :
  NoDup tickers ->
  snd (fetch_stock_data fetch tickers) =
  flat_map (fun t => match process_ticker fetch t with
                     | Recorded w => [(t, w)]
                     | _ => []
                     end) tickers.
Proof.
  intros Hnd. unfold fetch_stock_data. rewrite batch_result_flat by lia.
  rewrite fold_record_fresh; [reflexivity|exact Hnd|]. intros k _ [].
Qed.

(** X15: when the ticker list has no duplicates, the dict returned by
    fetch_stock_data holds exactly the recorded tickers, each with its
    window, in the order of the input list (so the per-ticker sheets of
    the workbook follow that order too); failed and skipped tickers leave
    no entry. *)
Theorem fetch_stock_data_in_order fetch tickers :
  NoDup tickers ->
  snd (fetch_stock_data fetch tickers) =
  flat_map (fun t => match process_ticker fetch t with
                     | Recorded w => [(t, w)]
                     | _ => []
                     end) tickers.
Proof.
  intros Hnd. exact (fetch_result_in_order fetch tickers Hnd).
Qed.

Lemma fetch_stock_data_in_order_witness :
  snd (fetch_stock_data fetch_abc ["A"; "B"; "C"]) =
  flat_map (fun t => match process_ticker fetch_abc t with
                     | Recorded w => [(t, w)]
                     | _ => []
                     end) ["A"; "B"; "C"].
Proof.
  apply fetch_stock_data_in_order.
  repeat constructor; cbn; intuition discriminate.
Defined.

Lemma fetch_log_no_processed fetch ts n :
  ~ In (MsgProcessed n) (fst (fetch_stock_data fetch ts)).
Proof.
  unfold fetch_stock_data. rewrite batch_log. intros H.
  apply in_flat_map in H as [i [_ [H|H]]]; [discriminate|].
  apply in_flat_map in H as [t [_ H]].
  destruct (process_ticker fetch t); cbn in H; [contradiction| |];
    destruct H as [H|[]]; discriminate.
Qed.

Lemma result_keys_in fetch ts k :
  In k (map fst (snd (fetch_stock_data fetch ts))) -> In k ts.
Proof.
  intros Hk. apply in_map_iff in Hk as [[k' w] [Hk' Hin]]. cbn in Hk'. subst k'.
  assert (Hnd : NoDup (map fst (snd (fetch_stock_data fetch ts)))).
  { unfold fetch_stock_data. rewrite batch_result_flat by lia.
    apply nodup_fold_record. constructor. }
  apply (in_dict_get _ _ _ Hnd) in Hin. rewrite batch_result_get in Hin.
  destruct (existsb (String.eqb k) ts) eqn:E; [|discriminate].
  apply existsb_eqb_in. exact E.
Qed.

Lemma length_flat_map_recorded fetch ts :
  length (flat_map (fun t => match process_ticker fetch t with
                             | Recorded w => [(t, w)]
                             | _ => []
                             end) ts) =
  length (filter (fun t => match process_ticker fetch t with
                           | Recorded _ => true
                           | _ => false
                           end) ts).
Proof.
  induction ts as [|t r IH]; [reflexivity|]. cbn [flat_map filter].
  destruct (process_ticker fetch t); cbn [length app]; rewrite ?IH; reflexivity.
Qed.

(** X16: the line "Successfully processed N tickers" is printed only
    when Wikipedia gave a non-empty list of symbols; N is the size of the
    dict fetch_stock_data returns, never more than the number of symbols,
    and, for a list without duplicates, exactly the number of symbols
    whose history was long enough to be recorded. *)
Theorem processed_count r fetch has_openpyxl n :
  In (Print (MsgProcessed n)) (main r fetch has_openpyxl) ->
  exists ts, r = WikiTable ts /\ ts <> [] /\
    n = length (snd (fetch_stock_data fetch ts)) /\ (n <= length ts)%nat /\
    (NoDup ts ->
     n = length (filter (fun t => match process_ticker fetch t with
                                  | Recorded _ => true
                                  | _ => false
                                  end) ts)).
Proof.
  intros H. destruct r as [[|t0 ts']|k e].
  - cbn in H. intuition discriminate.
  - exists (t0 :: ts'). split; [reflexivity|]. split; [discriminate|].
    assert (Hn : n = length (snd (fetch_stock_data fetch (t0 :: ts')))).
    { unfold main in H. cbn [get_sp500_tickers_wikipedia] in H.
      pose proof (fetch_log_no_processed fetch (t0 :: ts') n) as Hno.
      destruct (fetch_stock_data fetch (t0 :: ts')) as [log d]. cbn [fst snd] in *.
      repeat (apply in_app_iff in H as [H|H]).
      - apply in_map_iff in H as [m [Hm Hin]]. injection Hm as ->.
        destruct Hin as [Hin|[]]. discriminate.
      - destruct H as [H|[H|[]]]; discriminate.
      - destruct H as [H|[H|[H|[]]]]; discriminate.
      - apply in_map_iff in H as [m [Hm Hin]]. injection Hm as ->. contradiction.
      - destruct H as [H|[H|[]]]; [injection H as ->; reflexivity|discriminate].
      - exfalso. exact (excel_block_no_processed _ _ _ H). }
    split; [exact Hn|]. split.
    + rewrite Hn, <- (length_map fst). apply NoDup_incl_length.
      * unfold fetch_stock_data. rewrite batch_result_flat by lia.
        apply nodup_fold_record. constructor.
      * intros k Hk. apply (result_keys_in fetch). exact Hk.
    + intros Hnd. rewrite Hn, fetch_result_in_order by exact Hnd.
      apply length_flat_map_recorded.
  - destruct k; cbn in H; intuition discriminate.
Qed.

Lemma processed_count_witness :
  exists ts, WikiTable ["NEW"] = WikiTable ts /\ ts <> [] /\
    0%nat = length (snd (fetch_stock_data fetch_short ts)) /\ (0 <= length ts)%nat /\
    (NoDup ts ->
     0%nat = length (filter (fun t => match process_ticker fetch_short t with
                                      | Recorded _ => true
                                      | _ => false
                                      end) ts)).
Proof.
  apply (processed_count (WikiTable ["NEW"]) fetch_short true 0).
  vm_compute. repeat (first [left; reflexivity | right]).
Defined.

Lemma ticker_sheet_names d :
  Forall (fun kv => (String.length (fst kv) <= 31)%nat) d ->
  map fst (flat_map (fun kv => match w_rows (snd kv) with
                               | [] => []
                               | rs => [(sheet_name (fst kv), rs)]
                               end) d) =
  map fst (filter (fun kv => match w_rows (snd kv) with [] => false | _ => true end) d).
Proof.
  induction 1 as [|[k w] d Hk Hd IH]; [reflexivity|].
  cbn [flat_map filter fst snd] in *.
  destruct (w_rows w); cbn [app map fst]; rewrite ?IH; [reflexivity|].
  unfold sheet_name. rewrite substring0_short by exact Hk. reflexivity.
Qed.

Lemma nodup_map_filter {A B} (f : A -> B) (p : A -> bool) l :
  NoDup (map f l) -> NoDup (map f (filter p l)).
Proof.
  induction l as [|x l IH]; intros H; [constructor|].
  inversion H as [|? ? Hx Hl]; subst. cbn [filter].
  destruct (p x); [|apply IH; exact Hl].
  cbn [map]. constructor; [|apply IH; exact Hl].
  intros Hin. apply Hx. apply in_map_iff in Hin as [y [<- Hy]].
  apply filter_In in Hy as [Hy _]. apply in_map. exact Hy.
Qed.

Lemma excel_names_nodup d :
  NoDup (map fst d) ->
  Forall (fun kv => (String.length (fst kv) <= 31)%nat /\ fst kv <> "Summary"%string) d ->
  NoDup (map fst (excel_sheets d)).
Proof.
  intros Hnd Hf. unfold excel_sheets. rewrite map_app, ticker_sheet_names
    by (eapply Forall_impl; [|exact Hf]; intros kv [H _]; exact H).
  assert (Hsub : NoDup (map fst (filter (fun kv => match w_rows (snd kv) with
                                                   | [] => false | _ => true end) d))).
  { apply nodup_map_filter. exact Hnd. }
  destruct (summary_rows d); [exact Hsub|].
  cbn [map fst app]. constructor; [|exact Hsub].
  intros Hin. apply in_map_iff in Hin as [kv [Hkv Hin]].
  apply filter_In in Hin as [Hin _]. rewrite Forall_forall in Hf.
  destruct (Hf kv Hin) as [_ Hs]. contradiction.
Qed.

(** X17: when no symbol is longer than 31 characters or is literally
    "Summary", the sheet names passed to [to_excel] are pairwise distinct,
    duplicated symbols included: no call names a sheet that an earlier
    call named. *)
Theorem excel_sheet_names_distinct fetch ts :
  Forall (fun t => (String.length t <= 31)%nat /\ t <> "Summary"%string) ts ->
  NoDup (map fst (excel_sheets (snd (fetch_stock_data fetch ts)))).
Proof.
  intros Hts. apply excel_names_nodup.
  - unfold fetch_stock_data. rewrite batch_result_flat by lia.
    apply nodup_fold_record. constructor.
  - apply Forall_forall. intros kv Hkv.
    assert (Hin : In (fst kv) ts)
      by (apply (result_keys_in fetch); apply in_map; exact Hkv).
    rewrite Forall_forall in Hts. exact (Hts _ Hin).
Qed.

Lemma excel_sheet_names_distinct_witness :
  NoDup (map fst (excel_sheets (snd (fetch_stock_data fetch_abc ["A"; "B"; "A"])))).
Proof.
  apply excel_sheet_names_distinct.
  repeat constructor; cbn; try lia; discriminate.
Defined.
